(** * Server Temperature Monitor: a shallow embedding of
    [ServerTemp_server.js] (and of the start-up code of [ServerTemp.js]).

    The server keeps a handful of module-level variables, asks the
    operating system for a temperature through three shell commands and
    publishes the last reading through one HTTP route.  The embedding
    follows the source function by function:

    - JavaScript strings are lists of UTF-16 code units ([list N]);
    - a JavaScript number is an IEEE 754 double: [NaN], a signed
      infinity, or the rational a finite double denotes, in lowest
      terms; every arithmetic result is rounded to the nearest double,
      ties to even, and overflows to an infinity (the two zeros are
      one value here: nothing in the program tells them apart);
    - [String.prototype.match] is a small backtracking matcher run at
      every start offset, leftmost first;
    - the module-level variables are one record [state], threaded
      through the functions; every function also returns the list of
      effects it performed ([trace]);
    - [exec] is an oracle: for each command, the [(error, stdout)] pair
      its callback receives in the cycle at hand.

    Calls to [logInfo], [logWarn] and [logError] write to the host's
    console and touch none of the variables; they are left out. *)

From Equations Require Import Equations.
From Stdlib Require Import List Bool Arith ZArith NArith QArith Qreduction Qpower Qfield.
From Stdlib Require Import Ascii String Lia.
Import ListNotations.

Local Open Scope N_scope.

(* ===================================================================== *)
(** ** JavaScript strings *)
(* ===================================================================== *)

Module JsString.

(** A string is the list of its UTF-16 code units. *)
Definition t := list N.

Definition of_string (s : string) : t :=
  List.map (fun a => N_of_ascii a) (list_ascii_of_string s).

(** Code units used by the patterns of the source. *)
Definition c_dot : N := 46.
Definition c_plus : N := 43.
Definition c_minus : N := 45.
Definition c_colon : N := 58.
Definition c_deg : N := 176.  (* ° *)

(** [\d] of a pattern without the [u] flag, and [DecimalDigit]. *)
Definition is_digit (c : N) : bool := (48 <=? c) && (c <=? 57).

(** [\s], which is also [StrWhiteSpaceChar]: WhiteSpace and
    LineTerminator of ECMAScript. *)
Definition is_space (c : N) : bool :=
  (c =? 9) || (c =? 10) || (c =? 11) || (c =? 12) || (c =? 13) || (c =? 32)
  || (c =? 160) || (c =? 5760) || ((8192 <=? c) && (c <=? 8202))
  || (c =? 8232) || (c =? 8233) || (c =? 8239) || (c =? 8287)
  || (c =? 12288) || (c =? 65279).

(** [[\d.]] *)
Definition is_digit_or_dot (c : N) : bool := is_digit c || (c =? c_dot).

(** A string is truthy when it is not empty. *)
Definition truthy (s : t) : bool :=
  match s with [] => false | _ :: _ => true end.

Fixpoint eqb (a b : t) : bool :=
  match a, b with
  | [], [] => true
  | x :: a', y :: b' => (x =? y) && eqb a' b'
  | _, _ => false
  end.

(** Longest prefix whose code units satisfy [p], and the rest. *)
Fixpoint span (p : N -> bool) (s : t) : t * t :=
  match s with
  | c :: s' =>
      if p c then let '(a, b) := span p s' in (c :: a, b) else ([], s)
  | [] => ([], [])
  end.

(** [Some rest] when [s] starts with [pre]. *)
Fixpoint strip_prefix (pre s : t) : option t :=
  match pre, s with
  | [], _ => Some s
  | p :: pre', c :: s' => if p =? c then strip_prefix pre' s' else None
  | _ :: _, [] => None
  end.

End JsString.

(* ===================================================================== *)
(** ** JavaScript numbers *)
(* ===================================================================== *)

Module JsNum.

(** The value of a number: not-a-number, an infinity, or the rational
    a finite double denotes, in lowest terms. *)
Inductive t : Type :=
| NaN
| Infinity (negative : bool)
| Num (q : Q).

Definition isNaN (x : t) : bool :=
  match x with NaN => true | _ => false end.

Definition negate (x : t) : t :=
  match x with
  | NaN => NaN
  | Infinity s => Infinity (negb s)
  | Num q => Num (- q)
  end.

(** [n / d] rounded to the nearest integer, ties to the even one
    ([0 <= n], [0 < d]). *)
Definition round_half_even (n d : Z) : Z :=
  let q := (n / d)%Z in
  let r := (n mod d)%Z in
  if (2 * r <? d)%Z then q
  else if (d <? 2 * r)%Z then (q + 1)%Z
  else if Z.even q then q else (q + 1)%Z.

(** The [e] with [2^e <= a/b < 2^(e+1)], for positive [a] and [b]. *)
Definition binade (a b : Z) : Z :=
  let e0 := (Z.log2 a - Z.log2 b)%Z in
  if (b * 2 ^ Z.max 0 e0 <=? a * 2 ^ Z.max 0 (- e0))%Z
  then e0 else (e0 - 1)%Z.

(** The double nearest to [a/b], for positive [a] and [b]: 53
    significant bits, no unit in the last place below [2^-1074], and
    the positive infinity from [2^1024] on. *)
Definition round_pos (a b : Z) : t :=
  let e := binade a b in
  let u := Z.max (e - 52) (-1074) in
  let m := round_half_even (a * 2 ^ Z.max 0 (- u)) (b * 2 ^ Z.max 0 u) in
  if (0 <=? u)%Z && (2 ^ 1024 <=? m * 2 ^ u)%Z then Infinity false
  else Num (Qred (Qmake (m * 2 ^ Z.max 0 u) (Z.to_pos (2 ^ Z.max 0 (- u))))).

(** The Number value for the real [q]: round to nearest, ties to
    even. *)
Definition number (q : Q) : t :=
  match Qnum (Qred q) with
  | Z0 => Num 0
  | Zpos a => round_pos (Zpos a) (Zpos (Qden (Qred q)))
  | Zneg a => negate (round_pos (Zpos a) (Zpos (Qden (Qred q))))
  end.

(** [x / 1000], the only division of the source. *)
Definition div1000 (x : t) : t :=
  match x with
  | NaN => NaN
  | Infinity s => Infinity s
  | Num q => number (q / inject_Z 1000)
  end.

(** Value of a run of decimal digits, most significant first. *)
Definition digit_val (c : N) : Z := Z.of_N (c - 48).

Definition digits_val (ds : JsString.t) : Z :=
  fold_left (fun acc c => (10 * acc + digit_val c)%Z) ds 0%Z.

(** [ExponentPart]: [e] or [E], an optional sign, at least one digit.
    Returns the exponent; 0 when no exponent part is there. *)
Definition exponent_part (s : JsString.t) : Z :=
  match s with
  | c :: s1 =>
      if (c =? 101) || (c =? 69) then
        let '(neg, s2) :=
          match s1 with
          | d :: s2 =>
              if d =? JsString.c_minus then (true, s2)
              else if d =? JsString.c_plus then (false, s2)
              else (false, s1)
          | [] => (false, s1)
          end in
        let '(ds, _) := JsString.span JsString.is_digit s2 in
        match ds with
        | [] => 0%Z
        | _ :: _ => if neg then (- digits_val ds)%Z else digits_val ds
        end
      else 0%Z
  | [] => 0%Z
  end.

(** [StrUnsignedDecimalLiteral] without the [Infinity] case: the
    longest prefix [digits], [digits . digits?] or [. digits], each
    with an optional exponent; [None] when no prefix is a literal. *)
Definition unsigned_decimal (s : JsString.t) : option Q :=
  let '(ip, r1) := JsString.span JsString.is_digit s in
  let '(fp, r2) :=
    match r1 with
    | c :: r =>
        if c =? JsString.c_dot then JsString.span JsString.is_digit r
        else ([], r1)
    | [] => ([], r1)
    end in
  match ip, fp with
  | [], [] => None
  | _, _ =>
      let m := digits_val (ip ++ fp) in
      let e := (exponent_part r2 - Z.of_nat (List.length fp))%Z in
      Some (inject_Z m * Qpower (inject_Z 10) e)%Q
  end.

(** The global [parseFloat]: leading white space is dropped, then the
    longest prefix that is a [StrDecimalLiteral] is read and its value
    rounded to the nearest double, as Node does whatever the number of
    digits; [NaN] when there is none. *)
Definition parseFloat (s : JsString.t) : t :=
  let '(_, s0) := JsString.span JsString.is_space s in
  let '(neg, s1) :=
    match s0 with
    | c :: r =>
        if c =? JsString.c_minus then (true, r)
        else if c =? JsString.c_plus then (false, r)
        else (false, s0)
    | [] => (false, s0)
    end in
  match JsString.strip_prefix (JsString.of_string "Infinity") s1 with
  | Some _ => Infinity neg
  | None =>
      match unsigned_decimal s1 with
      | Some q => number (if neg then - q else q)%Q
      | None => NaN
      end
  end.

End JsNum.

(* ===================================================================== *)
(** ** Regular expressions of the source *)
(* ===================================================================== *)

Module Regex.

(** The patterns of the source are sequences of atoms; an atom is one
    code unit of a class, or a greedy [+] of a class, and may be a
    capture group. *)
Inductive quant : Type := One | Plus.

Record atom : Type := Atom {
  cls : N -> bool;
  qnt : quant;
  captured : bool
}.

Definition pattern := list atom.

Definition lit (c : N) : atom := Atom (N.eqb c) One false.

Definition lits (s : string) : pattern := List.map lit (JsString.of_string s).

(** Greedy repetition with backtracking: consume one more code unit of
    the class while that leads to a match, else hand what was consumed
    (most recent first in [acc]) and the rest to the continuation. *)
Fixpoint plus_loop (p : N -> bool)
    (k : JsString.t -> JsString.t -> option (list JsString.t))
    (acc s : JsString.t) : option (list JsString.t) :=
  match s with
  | c :: s' =>
      if p c then
        match plus_loop p k (c :: acc) s' with
        | Some r => Some r
        | None => k (List.rev (c :: acc)) s'
        end
      else None
  | [] => None
  end.

(** Match the pattern at the start of [s]; the result lists the texts
    of the capture groups, in order. *)
Fixpoint match_here (re : pattern) (s : JsString.t) : option (list JsString.t) :=
  match re with
  | [] => Some []
  | a :: re' =>
      let k (text rest : JsString.t) :=
        match match_here re' rest with
        | Some caps => Some (if captured a then text :: caps else caps)
        | None => None
        end in
      match qnt a with
      | One =>
          match s with
          | c :: s' => if cls a c then k [c] s' else None
          | [] => None
          end
      | Plus => plus_loop (cls a) k [] s
      end
  end.

(** [str.match(re)] for a pattern without the [g] flag: the match at
    the leftmost offset where there is one.  The empty pattern aside,
    a pattern here never matches the empty string, so the scan stops at
    the end of [s]. *)
Fixpoint search (re : pattern) (s : JsString.t) : option (list JsString.t) :=
  match match_here re s with
  | Some caps => Some caps
  | None =>
      match s with
      | _ :: s' => search re s'
      | [] => None
      end
  end.

(** [match[1]] *)
Definition group1 (caps : list JsString.t) : JsString.t :=
  List.nth 0 caps [].

End Regex.

Local Open Scope string_scope.

(* ===================================================================== *)
(** ** Module-level variables of [ServerTemp_server.js] *)
(* ===================================================================== *)

(** The three method names, the only values ever stored in
    [workingMethod] besides [null]. *)
Inductive method : Type := vcgencmd | thermal_zone | sensors.

(** [failedMethods] *)
Record failed_flags : Type := FailedFlags {
  f_vcgencmd : bool;
  f_thermal_zone : bool;
  f_sensors : bool
}.

(** [currentTemperature] *)
Record reading : Type := Reading {
  temperature : option JsNum.t;
  timestamp : option Z;
  unit_ : string;
  error : option string
}.

Record state : Type := State {
  consoleLogged : bool;
  temperatureSupported : bool;
  updateIntervalId : option nat;
  failedMethods : failed_flags;
  workingMethod : option method;
  currentTemperature : reading
}.

(** Values of the variables when the module starts to load. *)
Definition initial_state : state :=
  {| consoleLogged := false;
     temperatureSupported := true;
     updateIntervalId := None;
     failedMethods := FailedFlags false false false;
     workingMethod := None;
     currentTemperature := Reading None None "C" None |}.

(** [UPDATE_INTERVAL], in milliseconds. *)
Definition UPDATE_INTERVAL : Z := (10 * 60 * 1000)%Z.

Definition is_failed (m : method) (f : failed_flags) : bool :=
  match m with
  | vcgencmd => f_vcgencmd f
  | thermal_zone => f_thermal_zone f
  | sensors => f_sensors f
  end.

(** [failedMethods.<m> = true] *)
Definition mark_failed (m : method) (s : state) : state :=
  let f := failedMethods s in
  let f' :=
    match m with
    | vcgencmd => FailedFlags true (f_thermal_zone f) (f_sensors f)
    | thermal_zone => FailedFlags (f_vcgencmd f) true (f_sensors f)
    | sensors => FailedFlags (f_vcgencmd f) (f_thermal_zone f) true
    end in
  {| consoleLogged := consoleLogged s;
     temperatureSupported := temperatureSupported s;
     updateIntervalId := updateIntervalId s;
     failedMethods := f';
     workingMethod := workingMethod s;
     currentTemperature := currentTemperature s |}.

(** [workingMethod = '<m>'] *)
Definition set_working (m : method) (s : state) : state :=
  {| consoleLogged := consoleLogged s;
     temperatureSupported := temperatureSupported s;
     updateIntervalId := updateIntervalId s;
     failedMethods := failedMethods s;
     workingMethod := Some m;
     currentTemperature := currentTemperature s |}.

(* ===================================================================== *)
(** ** The three probes *)
(* ===================================================================== *)

(** What the callback of [exec] receives: [error] ([None] for [null],
    else the error's message) and [stdout]. *)
Record exec_result : Type := ExecResult {
  exec_error : option string;
  exec_stdout : JsString.t
}.

(** What a Node-style callback [(error, temp)] receives. *)
Inductive result : Type :=
| Ok (temp : JsNum.t)
| Err (message : string).

Definition is_ok (r : result) : bool :=
  match r with Ok _ => true | Err _ => false end.

(** [!error && stdout] *)
Definition has_output (r : exec_result) : bool :=
  match exec_error r with
  | None => JsString.truthy (exec_stdout r)
  | Some _ => false
  end.

(** [/temp=([\d.]+)/] *)
Definition re_vcgencmd : Regex.pattern :=
  (Regex.lits "temp=" ++ [Regex.Atom JsString.is_digit_or_dot Regex.Plus true])%list.

(** [/Core \d+:\s+\+([\d.]+)°C/] *)
Definition re_sensors : Regex.pattern :=
  (Regex.lits "Core "
  ++ [Regex.Atom JsString.is_digit Regex.Plus false;
      Regex.lit JsString.c_colon;
      Regex.Atom JsString.is_space Regex.Plus false;
      Regex.lit JsString.c_plus;
      Regex.Atom JsString.is_digit_or_dot Regex.Plus true;
      Regex.lit JsString.c_deg]
  ++ Regex.lits "C")%list.

(** [tryVcgencmd], given the outcome of [exec('vcgencmd measure_temp')]. *)
Definition tryVcgencmd (r : exec_result) : result :=
  let failure := Err "vcgencmd failed" in
  if has_output r then
    match Regex.search re_vcgencmd (exec_stdout r) with
    | Some m => Ok (JsNum.parseFloat (Regex.group1 m))
    | None => failure
    end
  else failure.

(** [tryThermalZone], given the outcome of
    [exec('cat /sys/class/thermal/thermal_zone0/temp')]. *)
Definition tryThermalZone (r : exec_result) : result :=
  let failure := Err "thermal_zone0 failed" in
  if has_output r then
    let temp := JsNum.div1000 (JsNum.parseFloat (exec_stdout r)) in
    if negb (JsNum.isNaN temp) then Ok temp else failure
  else failure.

(** [trySensors], given the outcome of [exec('sensors -A 2>&1')]. *)
Definition trySensors (r : exec_result) : result :=
  let failure := Err "sensors failed" in
  if has_output r then
    match Regex.search re_sensors (exec_stdout r) with
    | Some m => Ok (JsNum.parseFloat (Regex.group1 m))
    | None => failure
    end
  else failure.

(** The outcome of each command during one acquisition cycle.  A cycle
    runs a command at most once, so one outcome per command is enough. *)
Definition exec_env : Type := method -> exec_result.

Definition probe (m : method) (env : exec_env) : result :=
  match m with
  | vcgencmd => tryVcgencmd (env vcgencmd)
  | thermal_zone => tryThermalZone (env thermal_zone)
  | sensors => trySensors (env sensors)
  end.

(* ===================================================================== *)
(** ** The coordinator: [tryNextMethod] and [readTemperature] *)
(* ===================================================================== *)

(** What one call of the coordinator yields: the variables afterwards,
    what the callback receives, and the commands run, in order. *)
Definition outcome : Type := state * result * list method.

Definition ran (m : method) (o : outcome) : outcome :=
  let '(s, r, tr) := o in (s, r, m :: tr).

(** Number of methods not yet flagged: what decreases along the
    recursion of [tryNextMethod]. *)
Definition unfailed (f : failed_flags) : nat :=
  (if f_vcgencmd f then 0 else 1)
  + (if f_thermal_zone f then 0 else 1)
  + (if f_sensors f then 0 else 1).

Definition exhausted_message : string := "Unable to read temperature from system".

(** Case analysis on [x] that keeps the equation with [x]. *)
Definition inspect {A : Type} (x : A) : {y : A | x = y} := exist _ x eq_refl.

Equations? tryNextMethod (env : exec_env) (s : state) : outcome
  by wf (unfailed (failedMethods s)) lt :=
tryNextMethod env s with inspect (f_vcgencmd (failedMethods s)) := {
  | exist _ false Hv with tryVcgencmd (env vcgencmd) := {
      | Ok temp => (set_working vcgencmd s, Ok temp, [vcgencmd])
      | Err _ => ran vcgencmd (tryNextMethod env (mark_failed vcgencmd s)) }
  | exist _ true Hv with inspect (f_thermal_zone (failedMethods s)) := {
      | exist _ false Ht with tryThermalZone (env thermal_zone) := {
          | Ok temp => (set_working thermal_zone s, Ok temp, [thermal_zone])
          | Err _ =>
              ran thermal_zone (tryNextMethod env (mark_failed thermal_zone s)) }
      | exist _ true Ht with inspect (f_sensors (failedMethods s)) := {
          | exist _ false Hs with trySensors (env sensors) := {
              | Ok temp => (set_working sensors s, Ok temp, [sensors])
              | Err _ => ran sensors (tryNextMethod env (mark_failed sensors s)) }
          | exist _ true Hs => (s, Err exhausted_message, []) } } }.
Proof.
  all: unfold unfailed; cbn; rewrite ?Hv, ?Ht, ?Hs;
    repeat match goal with |- context [if ?b then _ else _] => destruct b end;
    cbn; lia.
Qed.

(** [readTemperature] *)
Definition readTemperature (env : exec_env) (s : state) : outcome :=
  match workingMethod s with
  | Some vcgencmd => (s, tryVcgencmd (env vcgencmd), [vcgencmd])
  | Some thermal_zone => (s, tryThermalZone (env thermal_zone), [thermal_zone])
  | Some sensors => (s, trySensors (env sensors), [sensors])
  | None => tryNextMethod env s
  end.

(* ===================================================================== *)
(** ** [updateTemperature] *)
(* ===================================================================== *)

(** What a call does to the outside, in order. *)
Inductive effect : Type :=
| RunCommand (m : method)
| ClearInterval (id : nat).

Definition put_reading (r : reading) (s : state) : state :=
  {| consoleLogged := consoleLogged s;
     temperatureSupported := temperatureSupported s;
     updateIntervalId := updateIntervalId s;
     failedMethods := failedMethods s;
     workingMethod := workingMethod s;
     currentTemperature := r |}.

(** The arrow function [updateTemperature] hands to [readTemperature];
    [now] is what [Date.now()] returns. *)
Definition updateTemperature_callback (r : result) (now : Z) (s : state)
  : state * list effect :=
  match r with
  | Err message =>
      let s1 := put_reading (Reading None (Some now) "C" (Some message)) s in
      if negb (consoleLogged s1) then
        match updateIntervalId s1 with
        | Some id =>
            ({| consoleLogged := true;
                temperatureSupported := false;
                updateIntervalId := None;
                failedMethods := failedMethods s1;
                workingMethod := workingMethod s1;
                currentTemperature := currentTemperature s1 |},
             [ClearInterval id])
        | None =>
            ({| consoleLogged := true;
                temperatureSupported := false;
                updateIntervalId := None;
                failedMethods := failedMethods s1;
                workingMethod := workingMethod s1;
                currentTemperature := currentTemperature s1 |},
             [])
        end
      else
        ({| consoleLogged := true;
            temperatureSupported := temperatureSupported s1;
            updateIntervalId := updateIntervalId s1;
            failedMethods := failedMethods s1;
            workingMethod := workingMethod s1;
            currentTemperature := currentTemperature s1 |},
         [])
  | Ok temp =>
      let s1 := put_reading (Reading (Some temp) (Some now) "C" None) s in
      ({| consoleLogged := true;
          temperatureSupported := temperatureSupported s1;
          updateIntervalId := updateIntervalId s1;
          failedMethods := failedMethods s1;
          workingMethod := workingMethod s1;
          currentTemperature := currentTemperature s1 |},
       [])
  end.

(** One acquisition cycle: [readTemperature] run to the point where it
    calls back, then the callback. *)
Definition acquire (env : exec_env) (now : Z) (s : state) : state * list effect :=
  let '(s1, r, tr) := readTemperature env s in
  let '(s2, effs) := updateTemperature_callback r now s1 in
  (s2, (List.map RunCommand tr ++ effs)%list).

(** [updateTemperature], with its cycle run to completion. *)
Definition updateTemperature (env : exec_env) (now : Z) (s : state)
  : state * list effect :=
  if negb (temperatureSupported s) then (s, []) else acquire env now s.

(** [getTemperatureData] *)
Definition getTemperatureData (s : state) : reading := currentTemperature s.

(* ===================================================================== *)
(** ** The route [GET /server_temp] *)
(* ===================================================================== *)

Inductive body : Type :=
| JsonReading (r : reading)
| JsonError (message : string).

Record response : Type := Response {
  status : nat;
  payload : body
}.

(** The handler; [header] is what [req.get('X-Plugin-Name')] returns,
    [None] for [undefined].  [res.json] without [res.status] answers
    200. *)
Definition server_temp (header : option JsString.t) (s : state) : response :=
  let pluginHeader :=
    match header with
    | Some h => if JsString.truthy h then h else JsString.of_string "NoPlugin"
    | None => JsString.of_string "NoPlugin"
    end in
  if JsString.eqb pluginHeader (JsString.of_string "ServerTempPlugin")
  then Response 200 (JsonReading (currentTemperature s))
  else Response 403 (JsonError "Unauthorised").

(* ===================================================================== *)
(** ** The process: timers, module load and the event loop *)
(* ===================================================================== *)

Inductive timer_kind : Type :=
| Timeout (delay : Z)
| Interval (period : Z).

(** A timer of the host whose callback is [updateTemperature]. *)
Record timer : Type := Timer {
  timer_id : nat;
  kind : timer_kind
}.

(** The process: the module's variables, the host's live timers, the
    next timer identity, and whether an acquisition cycle has been
    started whose [exec] callbacks have not run yet. *)
Record world : Type := World {
  vars : state;
  timers : list timer;
  next_id : nat;
  in_flight : bool
}.

(** The synchronous part of a call of [updateTemperature]: the guard,
    then [exec] is started and the call returns. *)
Definition call_updateTemperature (w : world) : world :=
  if negb (temperatureSupported (vars w)) then w
  else World (vars w) (timers w) (next_id w) true.

(** [updateIntervalId = setInterval(updateTemperature, period)] *)
Definition set_updateInterval (period : Z) (w : world) : world :=
  let id := next_id w in
  let s := vars w in
  World
    {| consoleLogged := consoleLogged s;
       temperatureSupported := temperatureSupported s;
       updateIntervalId := Some id;
       failedMethods := failedMethods s;
       workingMethod := workingMethod s;
       currentTemperature := currentTemperature s |}
    (timers w ++ [Timer id (Interval period)])%list
    (S id)
    (in_flight w).

(** The top-level statements of the module, in source order: the call
    [updateTemperature()] and then [setInterval]. *)
Definition module_load : world :=
  let w0 := World initial_state [] 1 false in
  let w1 := call_updateTemperature w0 in
  set_updateInterval UPDATE_INTERVAL w1.

Definition cancels (effs : list effect) (id : nat) : bool :=
  existsb (fun e => match e with
                    | ClearInterval id' => Nat.eqb id id'
                    | RunCommand _ => false
                    end) effs.

Definition apply_effects (effs : list effect) (ts : list timer) : list timer :=
  List.filter (fun t => negb (cancels effs (timer_id t))) ts.

Fixpoint find_timer (id : nat) (ts : list timer) : option timer :=
  match ts with
  | [] => None
  | t :: ts' => if Nat.eqb (timer_id t) id then Some t else find_timer id ts'
  end.

(** What the event loop can deliver. *)
Inductive event : Type :=
| Tick (id : nat)                       (* a live timer fires *)
| ExecDone (env : exec_env) (now : Z)   (* the cycle in flight calls back *)
| Request (header : option JsString.t). (* GET /server_temp *)

(** One turn of the event loop; [None] when the event cannot happen:
    a timer that is not live, callbacks with no cycle in flight, or a
    tick while a cycle is still in flight (the interval is taken to be
    longer than a cycle, so cycles do not overlap).  An [ExecDone]
    stands for all the [exec] callbacks of one cycle; [turn_step]
    further down takes them one at a time. *)
Definition step (w : world) (e : event) : option (world * option response) :=
  match e with
  | Tick id =>
      match find_timer id (timers w) with
      | Some t =>
          if in_flight w then None
          else
            let w1 := call_updateTemperature w in
            match kind t with
            | Interval _ => Some (w1, None)
            | Timeout _ =>
                Some (World (vars w1)
                        (List.filter (fun t' => negb (Nat.eqb (timer_id t') id))
                           (timers w1))
                        (next_id w1) (in_flight w1), None)
            end
      | None => None
      end
  | ExecDone env now =>
      if in_flight w then
        let '(s, effs) := acquire env now (vars w) in
        Some (World s (apply_effects effs (timers w)) (next_id w) false, None)
      else None
  | Request header => Some (w, Some (server_temp header (vars w)))
  end.

(** A sequence of turns. *)
Fixpoint run (w : world) (es : list event) : option world :=
  match es with
  | [] => Some w
  | e :: es' =>
      match step w e with
      | Some (w', _) => run w' es'
      | None => None
      end
  end.

(** Number of acquisition cycles completed by a sequence of events. *)
Fixpoint cycles (es : list event) : nat :=
  match es with
  | [] => 0
  | ExecDone _ _ :: es' => S (cycles es')
  | _ :: es' => cycles es'
  end.

(* ===================================================================== *)
(** ** Start-up of the browser side, [init] of [ServerTemp.js] *)
(* ===================================================================== *)

Module Client.

Inductive ready_state : Type := loading | interactive | complete.

Inductive handler : Type := h_init | h_fetchTemperature.

Inductive action : Type :=
| AddEventListener (name : string) (h : handler)
| SetTimeout (h : handler) (delay : Z)
| SetInterval (h : handler) (period : Z).

Definition UPDATE_INTERVAL : Z := (10 * 60 * 1000)%Z.

(** [init], by [document.readyState]. *)
Definition init (rs : ready_state) : list action :=
  match rs with
  | loading => [AddEventListener "DOMContentLoaded" h_init]
  | _ => [SetTimeout h_fetchTemperature 1000;
          SetInterval h_fetchTemperature UPDATE_INTERVAL]
  end.

End Client.

(* ===================================================================== *)
(** ** The coordinator as the specification words it *)
(* ===================================================================== *)

(** The fixed priority order of the probes. *)
Definition priority : list method := [vcgencmd; thermal_zone; sensors].

Definition method_eqb (a b : method) : bool :=
  match a, b with
  | vcgencmd, vcgencmd | thermal_zone, thermal_zone | sensors, sensors => true
  | _, _ => false
  end.

(** Walk the probes in order: skip a flagged one; on success record the
    probe as working and return its value; on failure flag it and go on
    with the next; with none left, report exhaustion. *)
Fixpoint try_in_order (env : exec_env) (ps : list method) (s : state) : outcome :=
  match ps with
  | [] => (s, Err exhausted_message, [])
  | p :: ps' =>
      if is_failed p (failedMethods s) then try_in_order env ps' s
      else
        match probe p env with
        | Ok temp => (set_working p s, Ok temp, [p])
        | Err _ => ran p (try_in_order env ps' (mark_failed p s))
        end
  end.

(** The probes not flagged in [s], in priority order. *)
Definition candidates (s : state) : list method :=
  List.filter (fun p => negb (is_failed p (failedMethods s))) priority.

(** [s] with other flags. *)
Definition with_failed (f : failed_flags) (s : state) : state :=
  {| consoleLogged := consoleLogged s;
     temperatureSupported := temperatureSupported s;
     updateIntervalId := updateIntervalId s;
     failedMethods := f;
     workingMethod := workingMethod s;
     currentTemperature := currentTemperature s |}.

(** Every probe fails on [env]. *)
Definition all_fail (env : exec_env) : bool :=
  List.forallb (fun p => negb (is_ok (probe p env))) priority.

(** Exactly one of [temperature] and [error] is not [null]. *)
Definition exactly_one (r : reading) : bool :=
  match temperature r, error r with
  | Some _, None | None, Some _ => true
  | _, _ => false
  end.

(** The environment of the first cycle completed by [es], if any. *)
Fixpoint first_cycle (es : list event) : option exec_env :=
  match es with
  | [] => None
  | ExecDone env _ :: _ => Some env
  | _ :: es' => first_cycle es'
  end.

(** The scheduler is disabled: the flag is down and no timer is live. *)
Definition disabled (w : world) : Prop :=
  temperatureSupported (vars w) = false /\ timers w = [].

(** The recurring timer is live and its identity is remembered. *)
Definition ticking (w : world) : Prop :=
  temperatureSupported (vars w) = true
  /\ exists id, updateIntervalId (vars w) = Some id
       /\ find_timer id (timers w) = Some (Timer id (Interval UPDATE_INTERVAL)).

(** The start-up the specification describes: nothing acquired during
    module load, a one-shot timer of one second for the first
    acquisition, and the recurring timer next to it. *)
Definition delayed_start (w : world) : Prop :=
  in_flight w = false
  /\ (exists t, In t (timers w) /\ kind t = Timeout 1000)
  /\ (exists t, In t (timers w) /\ kind t = Interval UPDATE_INTERVAL).

(** The callback of a cycle started in [s] receives an error. *)
Definition cycle_fails (env : exec_env) (s : state) : bool :=
  negb (is_ok (snd (fst (readTemperature env s)))).

(** The record a failed cycle stores. *)
Definition failure_record (now : Z) (message : string) : reading :=
  Reading None (Some now) "C" (Some message).

(** The record a successful cycle stores. *)
Definition success_record (now : Z) (temp : JsNum.t) : reading :=
  Reading (Some temp) (Some now) "C" None.

(** The scheduler after a first cycle that succeeded: the flag is up,
    a working method is known and the recurring timer is live. *)
Definition active (w : world) : Prop :=
  temperatureSupported (vars w) = true
  /\ consoleLogged (vars w) = true
  /\ workingMethod (vars w) <> None
  /\ updateIntervalId (vars w) = Some 1%nat
  /\ timers w = [Timer 1 (Interval UPDATE_INTERVAL)].

(** The scheduler after a first cycle that failed. *)
Definition off (w : world) : Prop :=
  temperatureSupported (vars w) = false
  /\ timers w = []
  /\ in_flight w = false
  /\ workingMethod (vars w) = None
  /\ temperature (currentTemperature (vars w)) = None
  /\ error (currentTemperature (vars w)) = Some exhausted_message.

(* ===================================================================== *)
(** ** Well-formed command output *)
(* ===================================================================== *)




(** [s] is empty or starts with a code unit outside the class [p]. *)
Definition stops (p : N -> bool) (s : JsString.t) : bool :=
  match s with
  | [] => true
  | c :: _ => negb (p c)
  end.


(** The pattern matches at none of the first [n] offsets of [s]. *)
Fixpoint no_match_in_prefix (re : Regex.pattern) (n : nat) (s : JsString.t)
  : bool :=
  match n with
  | O => true
  | S n' =>
      match Regex.match_here re s with
      | Some _ => false
      | None =>
          match s with
          | _ :: s' => no_match_in_prefix re n' s'
          | [] => true
          end
      end
  end.




(* ===================================================================== *)
(** ** The browser side: display and polling of [ServerTemp.js] *)
(* ===================================================================== *)

(** The page is the list of its elements in document order;
    [getElementById] finds the first element with the identity, and
    [parent.insertBefore(new, ref)] puts a childless element right
    before [ref] in that order.  Only the attributes the script reads
    or writes are kept.  [Number.prototype.toFixed] rounds a double and
    [toLocaleTimeString] reads the clock and the locale; both are
    taken as given. *)
Module Page.

Record element : Type := Element {
  el_id : string;
  tag : string;
  className : string;
  innerHTML : JsString.t;
  title : JsString.t;
  color : string;
  display : string;
  marginBottom : string;
  marginTop : string
}.

Definition document : Type := list element.

(** What the host provides: [temp.toFixed(1)] and
    [new Date().toLocaleTimeString()]. *)
Record builtins : Type := Builtins {
  toFixed1 : JsNum.t -> JsString.t;
  toLocaleTimeString : JsString.t
}.

Definition ADMIN_ONLY : bool := false.

Definition display_id : string := "server-temp-display".

Definition ping_id : string := "current-ping".

Fixpoint getElementById (id : string) (doc : document) : option element :=
  match doc with
  | [] => None
  | e :: rest =>
      if String.eqb (el_id e) id then Some e else getElementById id rest
  end.

(** Assignments to attributes of the element [getElementById id]
    returned: [f] is applied to the first element with the identity. *)
Fixpoint update_first (id : string) (f : element -> element) (doc : document)
  : document :=
  match doc with
  | [] => []
  | e :: rest =>
      if String.eqb (el_id e) id then f e :: rest
      else e :: update_first id f rest
  end.

(** [sub] is a prefix of [s]. *)
Fixpoint starts_with (sub s : JsString.t) : bool :=
  match sub, s with
  | [], _ => true
  | c :: sub', d :: s' => (c =? d)%N && starts_with sub' s'
  | _ :: _, [] => false
  end.

(** [s.includes(sub)] *)
Fixpoint includes (s sub : JsString.t) : bool :=
  starts_with sub s
  || match s with
     | [] => false
     | _ :: s' => includes s' sub
     end.

(** [checkAdminMode]: the value it leaves in [isTuneAuthenticated],
    given the text of the page body. *)
Definition checkAdminMode (bodyText : JsString.t) : bool :=
  includes bodyText
    (JsString.of_string "You are logged in as an administrator.")
  || includes bodyText
       (JsString.of_string "You are logged in as an adminstrator.")
  || includes bodyText
       (JsString.of_string "You are logged in and can control the receiver.").

(** The element [createTemperatureElement] builds. *)
Definition tempSpan : element :=
  {| el_id := display_id;
     tag := "p";
     className := "text-small";
     innerHTML := JsString.of_string "Server: Loading...";
     title := [];
     color := "var(--color-3)";
     display := "block";
     marginBottom := "0";
     marginTop := "" |}.

Definition set_marginTop (v : string) (e : element) : element :=
  {| el_id := el_id e; tag := tag e; className := className e;
     innerHTML := innerHTML e; title := title e; color := color e;
     display := display e; marginBottom := marginBottom e;
     marginTop := v |}.

(** [currentPing.parentNode.insertBefore(tempSpan, currentPing)] and
    then [currentPing.style.marginTop = '0'], for the first element
    with the identity [current-ping]. *)
Fixpoint insert_before_ping (doc : document) : document :=
  match doc with
  | [] => []
  | e :: rest =>
      if String.eqb (el_id e) ping_id
      then tempSpan :: set_marginTop "0" e :: rest
      else e :: insert_before_ping rest
  end.

(** [createTemperatureElement] *)
Definition createTemperatureElement (isTuneAuthenticated : bool)
    (doc : document) : document :=
  if ADMIN_ONLY && negb isTuneAuthenticated then doc
  else
    match getElementById ping_id doc with
    | None => doc
    | Some _ => insert_before_ping doc
    end.

(** [unit || 'C'] *)
Definition unit_or_C (unit : option JsString.t) : JsString.t :=
  match unit with
  | Some u => if JsString.truthy u then u else JsString.of_string "C"
  | None => JsString.of_string "C"
  end.

(** [`Server: ${displayTemp}°${unit || 'C'}`] *)
Definition server_line (b : builtins) (temp : JsNum.t)
    (unit : option JsString.t) : JsString.t :=
  (JsString.of_string "Server: " ++ toFixed1 b temp
   ++ JsString.c_deg :: unit_or_C unit)%list.

(** The assignments of the branch for a usable temperature. *)
Definition show_value (b : builtins) (temp : JsNum.t)
    (unit : option JsString.t) (e : element) : element :=
  {| el_id := el_id e; tag := tag e; className := className e;
     innerHTML := server_line b temp unit;
     title := (JsString.of_string "Last updated: " ++ toLocaleTimeString b)%list;
     color := color e;
     display := "block";
     marginBottom := "0";
     marginTop := marginTop e |}.

(** The assignments of the other branch; [title] is written only when
    [error] is truthy. *)
Definition show_blank (error : option JsString.t) (e : element) : element :=
  {| el_id := el_id e; tag := tag e; className := className e;
     innerHTML := [];
     title :=
       match error with
       | Some m => if JsString.truthy m
                   then (JsString.of_string "Error: " ++ m)%list else title e
       | None => title e
       end;
     color := color e;
     display := "block";
     marginBottom := marginBottom e;
     marginTop := marginTop e |}.

(** [temp !== null && !isNaN(temp)]; a missing field reads as
    [undefined], which takes the same branch as [null]. *)
Definition usable (temp : option JsNum.t) : option JsNum.t :=
  match temp with
  | Some t => if JsNum.isNaN t then None else Some t
  | None => None
  end.

(** [updateTemperatureDisplay(temp, unit, error)] *)
Definition updateTemperatureDisplay (b : builtins) (isTuneAuthenticated : bool)
    (temp : option JsNum.t) (unit error : option JsString.t) (doc : document)
  : document :=
  let doc1 :=
    match getElementById display_id doc with
    | Some _ => doc
    | None => createTemperatureElement isTuneAuthenticated doc
    end in
  match getElementById display_id doc1 with
  | None => doc1
  | Some _ =>
      if ADMIN_ONLY && negb isTuneAuthenticated then doc1
      else
        match usable temp with
        | Some t => update_first display_id (show_value b t unit) doc1
        | None => update_first display_id (show_blank error) doc1
        end
  end.

(** How [fetch] settles: rejected with an error, or resolved with the
    server's response. *)
Inductive fetch_outcome : Type :=
| NetworkError (message : JsString.t)
| Replied (resp : response).

(** [response.ok] *)
Definition ok (resp : response) : bool :=
  Nat.leb 200 (status resp) && Nat.leb (status resp) 299.

(** A number as [res.json] writes it and [response.json()] reads it
    back: [JSON.stringify] turns not-a-number and the infinities into
    [null]. *)
Definition json_number (t : option JsNum.t) : option JsNum.t :=
  match t with
  | Some (JsNum.Num q) => Some (JsNum.Num q)
  | _ => None
  end.

(** The value the client sends in [X-Plugin-Name]. *)
Definition plugin_header : JsString.t := JsString.of_string "ServerTempPlugin".

(** [fetchTemperature], from the point where [fetch] settles. *)
Definition fetchTemperature (b : builtins) (isTuneAuthenticated : bool)
    (outcome : fetch_outcome) (doc : document) : document :=
  match outcome with
  | NetworkError message =>
      updateTemperatureDisplay b isTuneAuthenticated None None (Some message) doc
  | Replied resp =>
      if ok resp then
        match payload resp with
        | JsonReading r =>
            updateTemperatureDisplay b isTuneAuthenticated
              (json_number (temperature r))
              (Some (JsString.of_string (unit_ r)))
              (option_map JsString.of_string (error r)) doc
        | JsonError message =>
            updateTemperatureDisplay b isTuneAuthenticated None None
              (Some (JsString.of_string message)) doc
        end
      else
        updateTemperatureDisplay b isTuneAuthenticated None None
          (Some (JsString.of_string "Failed to fetch temperature")) doc
  end.

(** One poll of the client against the server in state [s]. *)
Definition poll (b : builtins) (isTuneAuthenticated : bool) (s : state)
    (doc : document) : document :=
  fetchTemperature b isTuneAuthenticated
    (Replied (server_temp (Some plugin_header) s)) doc.

(** Number of elements with the identity. *)
Fixpoint count_id (id : string) (doc : document) : nat :=
  match doc with
  | [] => O
  | e :: rest =>
      (if String.eqb (el_id e) id then 1 else 0)%nat + count_id id rest
  end.

(** The arguments of one call of [updateTemperatureDisplay]. *)
Record call : Type := Call {
  c_temp : option JsNum.t;
  c_unit : option JsString.t;
  c_error : option JsString.t
}.

(** A sequence of calls, first to last. *)
Fixpoint updates (b : builtins) (isTuneAuthenticated : bool)
    (cs : list call) (doc : document) : document :=
  match cs with
  | [] => doc
  | c :: cs' =>
      updates b isTuneAuthenticated cs'
        (updateTemperatureDisplay b isTuneAuthenticated
           (c_temp c) (c_unit c) (c_error c) doc)
  end.

End Page.

(** Sample pages and host functions. *)
Module PageSample.

Definition plain (id : string) (text : string) : Page.element :=
  {| Page.el_id := id; Page.tag := "p"; Page.className := "";
     Page.innerHTML := JsString.of_string text; Page.title := [];
     Page.color := ""; Page.display := ""; Page.marginBottom := "";
     Page.marginTop := "" |}.

Definition heading : Page.element := plain "tuner-name" "FM-DX".

Definition ping : Page.element := plain "current-ping" "Ping: 20ms".

Definition footer : Page.element := plain "footer" "v1".

(** A page with the anchor and no display yet. *)
Definition fresh : Page.document := [heading; ping; footer].

(** A page without the anchor. *)
Definition bare : Page.document := [heading; footer].

(** Host functions that always print [45.6] and [12:00:00]. *)
Definition host : Page.builtins :=
  {| Page.toFixed1 := fun _ => JsString.of_string "45.6";
     Page.toLocaleTimeString := JsString.of_string "12:00:00" |}.

(** The page after one successful update. *)
Definition shown : Page.document :=
  Page.updateTemperatureDisplay host false
    (Some (JsNum.number (456 # 10))) (Some (JsString.of_string "C")) None fresh.

End PageSample.

(* ===================================================================== *)
(** ** The cycle one [exec] callback at a time *)
(* ===================================================================== *)

(** A cycle is a chain of [exec] calls; each callback is its own turn
    of the event loop.  The definitions below follow the source turn
    by turn, so the states between the callbacks of a cycle are there;
    [readTemperature] above is the chain run to its end. *)

(** The [exec] call whose callback is outstanding: started by the
    [switch] of [readTemperature] for the working method, or by
    [tryNextMethod] in its walk. *)
Inductive waiting : Type :=
| Direct (m : method)
| Chain (m : method).

Definition waited (w : waiting) : method :=
  match w with Direct m | Chain m => m end.

(** Where a call stands when it returns to the event loop: an [exec]
    is outstanding, or the callback of [readTemperature] has been
    called. *)
Inductive progress : Type :=
| Waiting (w : waiting)
| Called (r : result).

Definition probe_result (m : method) (r : exec_result) : result :=
  match m with
  | vcgencmd => tryVcgencmd r
  | thermal_zone => tryThermalZone r
  | sensors => trySensors r
  end.

(** [tryNextMethod] up to the point where it returns: the [if] chain
    starts a command, or calls back with the exhaustion error. *)
Definition tryNextMethod_start (s : state) : progress :=
  if negb (f_vcgencmd (failedMethods s)) then Waiting (Chain vcgencmd)
  else if negb (f_thermal_zone (failedMethods s))
       then Waiting (Chain thermal_zone)
  else if negb (f_sensors (failedMethods s)) then Waiting (Chain sensors)
  else Called (Err exhausted_message).

(** [readTemperature] up to the point where it returns. *)
Definition readTemperature_start (s : state) : progress :=
  match workingMethod s with
  | Some m => Waiting (Direct m)
  | None => tryNextMethod_start s
  end.

(** The callback of the outstanding [exec], given what the command
    produced: for the working method it hands the probe's result on;
    in the walk it records a success, or flags the probe and calls
    [tryNextMethod] again. *)
Definition exec_callback (w : waiting) (r : exec_result) (s : state)
  : state * progress :=
  match w with
  | Direct m => (s, Called (probe_result m r))
  | Chain m =>
      match probe_result m r with
      | Ok temp => (set_working m s, Called (Ok temp))
      | Err _ => (mark_failed m s, tryNextMethod_start (mark_failed m s))
      end
  end.

(** The chain of callbacks of one cycle, each command answering as
    [env] says; [None] when [fuel] callbacks do not end it. *)
Fixpoint drive (fuel : nat) (env : exec_env) (s : state) (p : progress)
  : option outcome :=
  match p with
  | Called r => Some (s, r, [])
  | Waiting w =>
      match fuel with
      | O => None
      | S fuel' =>
          let '(s1, p1) := exec_callback w (env (waited w)) s in
          option_map (ran (waited w)) (drive fuel' env s1 p1)
      end
  end.

(** The process between turns: the variables, the live timers, the
    next timer identity and the outstanding [exec], if any. *)
Record turn_world : Type := TurnWorld {
  t_vars : state;
  t_timers : list timer;
  t_next_id : nat;
  t_waiting : option waiting
}.

(** The end of a turn that ran [readTemperature] or an [exec]
    callback: either an [exec] is outstanding, or the callback of
    [updateTemperature] has run. *)
Definition end_turn (now : Z) (s : state) (ts : list timer) (next : nat)
    (p : progress) : turn_world :=
  match p with
  | Waiting w => TurnWorld s ts next (Some w)
  | Called r =>
      let '(s', effs) := updateTemperature_callback r now s in
      TurnWorld s' (apply_effects effs ts) next None
  end.

(** A call of [updateTemperature] as one turn. *)
Definition turn_updateTemperature (now : Z) (w : turn_world) : turn_world :=
  if negb (temperatureSupported (t_vars w)) then w
  else end_turn now (t_vars w) (t_timers w) (t_next_id w)
         (readTemperature_start (t_vars w)).

(** Module load as one turn: [updateTemperature()], then
    [updateIntervalId = setInterval(...)]. *)
Definition turn_module_load (now : Z) : turn_world :=
  let w1 := turn_updateTemperature now (TurnWorld initial_state [] 1 None) in
  let id := t_next_id w1 in
  let s := t_vars w1 in
  TurnWorld
    {| consoleLogged := consoleLogged s;
       temperatureSupported := temperatureSupported s;
       updateIntervalId := Some id;
       failedMethods := failedMethods s;
       workingMethod := workingMethod s;
       currentTemperature := currentTemperature s |}
    (t_timers w1 ++ [Timer id (Interval UPDATE_INTERVAL)])%list
    (S id)
    (t_waiting w1).

(** What the event loop can deliver, turn by turn. *)
Inductive turn_event : Type :=
| TurnTick (id : nat) (now : Z)                 (* the interval fires *)
| ExecCallback (r : exec_result) (now : Z)      (* a command has ended *)
| TurnRequest (header : option JsString.t).     (* GET /server_temp *)

(** One turn; [None] when the event cannot happen: a timer that is not
    live, a callback with no [exec] outstanding, or a tick while an
    [exec] is outstanding (cycles are taken not to overlap, as in
    [step]). *)
Definition turn_step (w : turn_world) (e : turn_event) : option turn_world :=
  match e with
  | TurnTick id now =>
      match find_timer id (t_timers w) with
      | Some t =>
          match t_waiting w with
          | Some _ => None
          | None =>
              let w1 := turn_updateTemperature now w in
              match kind t with
              | Interval _ => Some w1
              | Timeout _ =>
                  Some (TurnWorld (t_vars w1)
                          (List.filter
                             (fun t' => negb (Nat.eqb (timer_id t') id))
                             (t_timers w1))
                          (t_next_id w1) (t_waiting w1))
              end
          end
      | None => None
      end
  | ExecCallback r now =>
      match t_waiting w with
      | Some wt =>
          let '(s1, p) := exec_callback wt r (t_vars w) in
          Some (end_turn now s1 (t_timers w) (t_next_id w) p)
      | None => None
      end
  | TurnRequest _ => Some w
  end.

Fixpoint turn_run (w : turn_world) (es : list turn_event) : option turn_world :=
  match es with
  | [] => Some w
  | e :: es' =>
      match turn_step w e with
      | Some w' => turn_run w' es'
      | None => None
      end
  end.

(* ===================================================================== *)
(** ** Further vocabulary for runs *)
(* ===================================================================== *)

(** [p] comes strictly before [m] in the priority order. *)
Definition precedes (p m : method) : bool :=
  match p, m with
  | vcgencmd, thermal_zone | vcgencmd, sensors | thermal_zone, sensors => true
  | _, _ => false
  end.

(** What [Date.now()] returned in the last cycle completed by [es]. *)
Fixpoint last_now (es : list event) : option Z :=
  match es with
  | [] => None
  | ExecDone _ now :: es' =>
      match last_now es' with
      | Some later => Some later
      | None => Some now
      end
  | _ :: es' => last_now es'
  end.

(** The flags follow the priority order: while the walk waits for
    probe [p], no working method is known and exactly the probes before
    [p] are flagged; once a working method [m] is known, exactly the
    probes before [m] are flagged; with no working method and nothing
    outstanding, all three are flagged. *)
Definition flags_in_order (w : turn_world) : Prop :=
  let flagged q := is_failed q (failedMethods (t_vars w)) in
  match t_waiting w with
  | Some (Chain p) =>
      workingMethod (t_vars w) = None /\ forall q, flagged q = precedes q p
  | Some (Direct m) =>
      workingMethod (t_vars w) = Some m /\ forall q, flagged q = precedes q m
  | None =>
      match workingMethod (t_vars w) with
      | Some m => forall q, flagged q = precedes q m
      | None => forall q, flagged q = true
      end
  end.

(** The event is a request to the endpoint. *)
Definition is_request (e : event) : bool :=
  match e with Request _ => true | _ => false end.

(* ===================================================================== *)
(** ** Shapes of command output *)
(* ===================================================================== *)

(** A non-empty run of code units of the class [p]. *)
Definition is_run (p : N -> bool) (text : JsString.t) : bool :=
  JsString.truthy text && List.forallb p text.

(** Output that holds [temp=] followed by [text]. *)
Definition vcgencmd_run (pre text post : JsString.t) : JsString.t :=
  (pre ++ JsString.of_string "temp=" ++ text ++ post)%list.

(** Output that holds [Core <n>:<ws>+<text>°C]. *)
Definition sensors_run (pre n ws text post : JsString.t) : JsString.t :=
  (pre ++ JsString.of_string "Core " ++ n ++ JsString.c_colon :: ws
   ++ JsString.c_plus :: text
   ++ JsString.c_deg :: JsString.of_string "C" ++ post)%list.

(** File content with a sign in front of the number. *)
Definition signed_text (ws : JsString.t) (negative : bool) (body : JsString.t)
  : JsString.t :=
  (ws ++ (if negative then JsString.c_minus else JsString.c_plus) :: body)%list.

(** The number is not-a-number, the positive infinity, or a rational
    that is not negative. *)
Definition not_negative (x : JsNum.t) : Prop :=
  match x with
  | JsNum.NaN => True
  | JsNum.Infinity negative => negative = false
  | JsNum.Num q => (0 <= q)%Q
  end.

(* ===================================================================== *)
(** ** Sample command outcomes *)
(* ===================================================================== *)

Module Sample.

Definition out (text : JsString.t) : exec_result := ExecResult None text.

Definition down : exec_result := ExecResult (Some "Command failed") [].

Definition nl : JsString.t := [10%N].

Definition deg : JsString.t := [JsString.c_deg].

(** No command works. *)
Definition env_none : exec_env := fun _ => down.

(** A Broadcom board: [vcgencmd] answers. *)
Definition env_pi : exec_env := fun m =>
  match m with
  | vcgencmd => out (JsString.of_string "temp=45.6'C" ++ nl)%list
  | _ => down
  end.

(** A Linux host with a thermal zone only. *)
Definition env_linux : exec_env := fun m =>
  match m with
  | thermal_zone => out (JsString.of_string "42123" ++ nl)%list
  | _ => down
  end.

(** Text of [sensors -A] on a two-core machine. *)
Definition sensors_text : JsString.t :=
  (JsString.of_string "coretemp-isa-0000" ++ nl
   ++ JsString.of_string "Package id 0:  +40.0" ++ deg
   ++ JsString.of_string "C  (high = +80.0" ++ deg
   ++ JsString.of_string "C)" ++ nl
   ++ JsString.of_string "Core 0:        +38.0" ++ deg
   ++ JsString.of_string "C  (high = +80.0" ++ deg
   ++ JsString.of_string "C)" ++ nl
   ++ JsString.of_string "Core 1:        +39.5" ++ deg
   ++ JsString.of_string "C  (high = +80.0" ++ deg
   ++ JsString.of_string "C)" ++ nl)%list.

Definition env_sensors : exec_env := fun m =>
  match m with
  | sensors => out sensors_text
  | _ => down
  end.

(** Variables after a first cycle that found the thermal zone. *)
Definition settled : state :=
  {| consoleLogged := true;
     temperatureSupported := true;
     updateIntervalId := Some 1%nat;
     failedMethods := FailedFlags true false false;
     workingMethod := Some thermal_zone;
     currentTemperature :=
       Reading (Some (JsNum.number (42123 # 1000))) (Some 0%Z) "C" None |}.

(** Every flag up and no working method. *)
Definition stuck : state :=
  {| consoleLogged := false;
     temperatureSupported := true;
     updateIntervalId := Some 1%nat;
     failedMethods := FailedFlags true true true;
     workingMethod := None;
     currentTemperature := Reading None None "C" None |}.

End Sample.

(* ===================================================================== *)
(** * Properties *)
(* ===================================================================== *)

(** ** Helper lemmas *)

Lemma JsString_eqb_eq (a b : JsString.t) : JsString.eqb a b = true <-> a = b.
Proof.
  revert b; induction a as [|x a IH]; intros [|y b]; cbn; split;
    try congruence; try reflexivity.
  - intros H. apply andb_true_iff in H as [Hx Hab].
    apply N.eqb_eq in Hx. apply IH in Hab. congruence.
  - intros H. injection H as -> ->. rewrite N.eqb_refl. cbn. now apply IH.
Qed.

(** The recursion of [tryNextMethod] is the walk along [priority]. *)
Lemma tryNextMethod_in_order env s :
  tryNextMethod env s = try_in_order env priority s.
Proof.
  destruct s as [cl ts id [fv ft fs] wm cur].
  destruct fv, ft, fs; simp tryNextMethod; cbn.
  all: repeat (match goal with
       | |- context [tryVcgencmd ?x] => destruct (tryVcgencmd x) eqn:?
       | |- context [tryThermalZone ?x] => destruct (tryThermalZone x) eqn:?
       | |- context [trySensors ?x] => destruct (trySensors x) eqn:?
       end; simp tryNextMethod; cbn); reflexivity.
Qed.

(** A probe's own failure is never the exhaustion message. *)
Lemma probe_error_not_exhausted m env :
  probe m env <> Err exhausted_message.
Proof.
  destruct m; cbn;
    unfold tryVcgencmd, tryThermalZone, trySensors;
    repeat match goal with
      | |- context [if ?b then _ else _] => destruct b
      | |- context [match ?x with Some _ => _ | None => _ end] => destruct x
      end; discriminate.
Qed.

Lemma readTemperature_working env s m :
  workingMethod s = Some m -> readTemperature env s = (s, probe m env, [m]).
Proof.
  unfold readTemperature. intros ->. destruct m; reflexivity.
Qed.

Lemma readTemperature_unset env s :
  workingMethod s = None -> readTemperature env s = try_in_order env priority s.
Proof.
  unfold readTemperature. intros ->. apply tryNextMethod_in_order.
Qed.

Lemma try_in_order_flags env ps s :
  forall m, is_failed m (failedMethods s) = true ->
    is_failed m (failedMethods (fst (fst (try_in_order env ps s)))) = true.
Proof.
  revert s; induction ps as [|p ps IH]; intros s m Hm; cbn; [exact Hm|].
  destruct (is_failed p (failedMethods s)); [now apply IH|].
  destruct (probe p env); cbn; [exact Hm|].
  specialize (IH (mark_failed p s) m).
  destruct (try_in_order env ps (mark_failed p s)) as [[s' r] tr]; cbn in *.
  apply IH. destruct p, m; cbn; auto.
Qed.

Ltac split_probes :=
  repeat match goal with
    | |- context [tryVcgencmd ?x] => destruct (tryVcgencmd x) eqn:?
    | |- context [tryThermalZone ?x] => destruct (tryThermalZone x) eqn:?
    | |- context [trySensors ?x] => destruct (trySensors x) eqn:?
    end.

(** ** The coordinator *)

(** C1. A cycle that starts with [workingMethod] unset walks the probes
    in the order vcgencmd, thermal_zone, sensors and skips the flagged
    ones: the commands run are a prefix of the unflagged probes in that
    order.  A flag is up afterwards exactly when it was up before or
    the probe was run and failed.  On success the last command run is
    the one that succeeded, every command before it failed, its value
    is returned and it is recorded as [workingMethod]; without a
    success every unflagged probe was run and the exhaustion error is
    returned.  The whole call equals the walk [try_in_order], which
    flags a failed probe before it goes on. *)
Theorem coordinator_fallback_order (env : exec_env) (s : state)
    (Hunset : workingMethod s = None) :
  readTemperature env s = try_in_order env priority s
  /\ let '(s', r, tr) := readTemperature env s in
     (exists rest, candidates s = tr ++ rest)%list
     /\ (forall p, is_failed p (failedMethods s')
                   = is_failed p (failedMethods s)
                     || (existsb (method_eqb p) tr && negb (is_ok (probe p env))))
     /\ match r with
        | Ok temp =>
            exists tried p, tr = (tried ++ [p])%list
              /\ probe p env = Ok temp
              /\ workingMethod s' = Some p
              /\ forall q, In q tried -> is_ok (probe q env) = false
        | Err message =>
            message = exhausted_message
            /\ tr = candidates s
            /\ workingMethod s' = None
            /\ forall q, In q tr -> is_ok (probe q env) = false
        end.
Proof.
  split; [now apply readTemperature_unset|].
  rewrite (readTemperature_unset env s Hunset).
  destruct s as [cl ts id [fv ft fs] wm cur]. cbn in Hunset; subst wm.
  unfold candidates.
  destruct fv, ft, fs; cbn; split_probes; cbn.
  all: split; [eexists; reflexivity|].
  all: split;
    [intros p; destruct p; cbn;
     repeat match goal with H : _ = _ |- _ => rewrite H end; reflexivity|].
  all: try (split; [reflexivity|split; [reflexivity|split; [reflexivity|]]];
            intros q Hq; cbn in Hq;
            repeat (destruct Hq as [<-|Hq]; [cbn;
              repeat match goal with H : _ = _ |- _ => rewrite H end;
              reflexivity|]); contradiction).
  all: match goal with
       | |- exists tried p, [?a] = _ /\ _ => exists [], a
       | |- exists tried p, [?a; ?b] = _ /\ _ => exists [a], b
       | |- exists tried p, [?a; ?b; ?c] = _ /\ _ => exists [a; b], c
       end.
  all: split; [reflexivity|split; [cbn; assumption|split; [reflexivity|]]].
  all: intros q Hq; cbn in Hq;
       repeat (destruct Hq as [<-|Hq]; [cbn;
         repeat match goal with H : _ = _ |- _ => rewrite H end;
         reflexivity|]); contradiction.
Qed.

Lemma coordinator_fallback_order_witness :
  workingMethod initial_state = None
  /\ readTemperature Sample.env_linux initial_state
     = try_in_order Sample.env_linux priority initial_state.
Proof.
  split; [reflexivity|].
  pose proof (coordinator_fallback_order Sample.env_linux initial_state eq_refl)
    as H.
  destruct H as [H _]. exact H.
Defined.

(** C3. In a cycle that starts with [workingMethod] set to [m], only
    the command of [m] is run and the callback receives that probe's
    result; neither the flags nor the outcome of any other command
    have a part in it; and whether the probe succeeds or fails, the
    cycle leaves [workingMethod] and [failedMethods] as they were. *)
Theorem working_method_only (env : exec_env) (s : state) (m : method)
    (Hset : workingMethod s = Some m) :
  readTemperature env s = (s, probe m env, [m])
  /\ (forall env' f, env' m = env m ->
        readTemperature env' (with_failed f s)
        = (with_failed f s, probe m env, [m]))
  /\ (forall now,
        workingMethod (fst (acquire env now s)) = Some m
        /\ failedMethods (fst (acquire env now s)) = failedMethods s
        /\ List.filter (fun e => match e with RunCommand _ => true | _ => false end)
             (snd (acquire env now s)) = [RunCommand m]).
Proof.
  split; [now apply readTemperature_working|]. split.
  - intros env' f Henv.
    rewrite (readTemperature_working env' (with_failed f s) m Hset).
    destruct m; cbn; rewrite Henv; reflexivity.
  - intros now. unfold acquire.
    rewrite (readTemperature_working env s m Hset).
    unfold updateTemperature_callback.
    destruct (probe m env); cbn.
    + auto.
    + destruct (consoleLogged s); cbn; [auto|].
      destruct (updateIntervalId s); cbn; auto.
Qed.

Lemma working_method_only_witness :
  workingMethod Sample.settled = Some thermal_zone
  /\ readTemperature Sample.env_none Sample.settled
     = (Sample.settled, Err "thermal_zone0 failed", [thermal_zone]).
Proof.
  split; [reflexivity|].
  exact (proj1 (working_method_only Sample.env_none Sample.settled
                  thermal_zone eq_refl)).
Defined.

(** C5. With all three flags up and [workingMethod] unset, the
    coordinator runs no command, changes nothing and calls back with
    the exhaustion error. *)
Theorem exhaustion_without_probing (env : exec_env) (s : state)
    (Hunset : workingMethod s = None)
    (Hall : forall m, is_failed m (failedMethods s) = true) :
  readTemperature env s = (s, Err exhausted_message, []).
Proof.
  rewrite (readTemperature_unset env s Hunset).
  pose proof (Hall vcgencmd) as Hv.
  pose proof (Hall thermal_zone) as Ht.
  pose proof (Hall sensors) as Hs.
  cbn in *. rewrite Hv, Ht, Hs. reflexivity.
Qed.

Lemma exhaustion_without_probing_witness :
  readTemperature Sample.env_pi Sample.stuck
  = (Sample.stuck, Err "Unable to read temperature from system", []).
Proof.
  apply (exhaustion_without_probing Sample.env_pi Sample.stuck).
  - reflexivity.
  - intros m; destruct m; reflexivity.
Defined.

(** ** The endpoint *)

(** C7. The handler answers 200 with the cache record when the header
    [X-Plugin-Name] is the string [ServerTempPlugin], and in every other
    case, an absent header included, 403 with the body
    [{error: 'Unauthorised'}]. *)
Theorem endpoint_header_gate (header : option JsString.t) (s : state) :
  (header = Some (JsString.of_string "ServerTempPlugin")
   /\ server_temp header s = Response 200 (JsonReading (currentTemperature s)))
  \/ (header <> Some (JsString.of_string "ServerTempPlugin")
      /\ server_temp header s = Response 403 (JsonError "Unauthorised")).
Proof.
  unfold server_temp.
  destruct header as [h|].
  - destruct h as [|c h].
    + right. split; [discriminate|reflexivity].
    + cbn [JsString.truthy].
      destruct (JsString.eqb (c :: h) (JsString.of_string "ServerTempPlugin"))
        eqn:E.
      * left. apply JsString_eqb_eq in E. rewrite E. auto.
      * right. split; [|reflexivity]. intros H.
        assert (E' : JsString.eqb (c :: h)
                       (JsString.of_string "ServerTempPlugin") = true)
          by (apply JsString_eqb_eq; congruence).
        congruence.
  - right. split; [discriminate|reflexivity].
Qed.

(** ** The scheduler: helper lemmas *)

Lemma callback_frame r now s :
  failedMethods (fst (updateTemperature_callback r now s)) = failedMethods s
  /\ workingMethod (fst (updateTemperature_callback r now s)) = workingMethod s.
Proof.
  unfold updateTemperature_callback.
  destruct r; cbn; [auto|].
  destruct (consoleLogged s); cbn; [auto|].
  destruct (updateIntervalId s); cbn; auto.
Qed.

Lemma callback_cache r now s :
  currentTemperature (fst (updateTemperature_callback r now s))
  = match r with
    | Ok temp => success_record now temp
    | Err message => failure_record now message
    end.
Proof.
  unfold updateTemperature_callback.
  destruct r; cbn; [reflexivity|].
  destruct (consoleLogged s); cbn; [reflexivity|].
  destruct (updateIntervalId s); reflexivity.
Qed.

Lemma readTemperature_flags env s m :
  is_failed m (failedMethods s) = true ->
  is_failed m (failedMethods (fst (fst (readTemperature env s)))) = true.
Proof.
  intros Hm. destruct (workingMethod s) as [w|] eqn:Hw.
  - rewrite (readTemperature_working env s w Hw). exact Hm.
  - rewrite (readTemperature_unset env s Hw). now apply try_in_order_flags.
Qed.

Lemma acquire_unfold env now s :
  acquire env now s
  = (fst (updateTemperature_callback (snd (fst (readTemperature env s))) now
            (fst (fst (readTemperature env s)))),
     (List.map RunCommand (snd (readTemperature env s))
      ++ snd (updateTemperature_callback (snd (fst (readTemperature env s))) now
                (fst (fst (readTemperature env s)))))%list).
Proof.
  unfold acquire.
  destruct (readTemperature env s) as [[s1 r] tr]. cbn.
  destruct (updateTemperature_callback r now s1). reflexivity.
Qed.

Lemma acquire_flags env now s m :
  is_failed m (failedMethods s) = true ->
  is_failed m (failedMethods (fst (acquire env now s))) = true.
Proof.
  intros Hm. rewrite acquire_unfold. cbn [fst].
  rewrite (proj1 (callback_frame _ _ _)). now apply readTemperature_flags.
Qed.

Lemma acquire_cache env now s :
  currentTemperature (fst (acquire env now s))
  = match snd (fst (readTemperature env s)) with
    | Ok temp => success_record now temp
    | Err message => failure_record now message
    end.
Proof. rewrite acquire_unfold. cbn [fst]. apply callback_cache. Qed.

Lemma call_updateTemperature_vars w : vars (call_updateTemperature w) = vars w.
Proof. unfold call_updateTemperature. destruct (negb _); reflexivity. Qed.

(** What a turn of the event loop does to the variables. *)
Lemma step_vars w e w' r :
  step w e = Some (w', r) ->
  match e with
  | ExecDone env now => in_flight w = true /\ vars w' = fst (acquire env now (vars w))
  | _ => vars w' = vars w
  end.
Proof.
  destruct e as [id|env now|h]; cbn.
  - destruct (find_timer id (timers w)) as [t|]; [|discriminate].
    destruct (in_flight w); [discriminate|].
    destruct (kind t); intros H; injection H as <- _; cbn;
      apply call_updateTemperature_vars.
  - destruct (in_flight w); [|discriminate].
    destruct (acquire env now (vars w)) as [s effs].
    intros H; injection H as <- _. auto.
  - intros H; injection H as <- _. reflexivity.
Qed.

Lemma step_flags w e w' r m :
  step w e = Some (w', r) ->
  is_failed m (failedMethods (vars w)) = true ->
  is_failed m (failedMethods (vars w')) = true.
Proof.
  intros Hstep Hm. apply step_vars in Hstep.
  destruct e; try (rewrite Hstep; exact Hm).
  destruct Hstep as [_ ->]. now apply acquire_flags.
Qed.

Lemma run_flags es : forall w w' m,
  run w es = Some w' ->
  is_failed m (failedMethods (vars w)) = true ->
  is_failed m (failedMethods (vars w')) = true.
Proof.
  induction es as [|e es IH]; intros w w' m Hrun Hm; cbn in Hrun.
  - injection Hrun as <-. exact Hm.
  - destruct (step w e) as [[w1 r]|] eqn:Hstep; [|discriminate].
    apply (IH w1 w' m Hrun). exact (step_flags w e w1 r m Hstep Hm).
Qed.

(** ** Monotone flags *)

(** C9. No turn of the event loop (a timer tick, the completion of a
    cycle, a request) and no call of [updateTemperature] takes a flag of
    [failedMethods] down: a flag that is up stays up along every
    sequence of events. *)
Theorem failedMethods_monotone (w w' : world) (es : list event) (m : method)
    (Hrun : run w es = Some w')
    (Hup : is_failed m (failedMethods (vars w)) = true) :
  is_failed m (failedMethods (vars w')) = true
  /\ (forall env now,
        is_failed m (failedMethods (fst (updateTemperature env now (vars w'))))
        = true).
Proof.
  pose proof (run_flags es w w' m Hrun Hup) as H. split; [exact H|].
  intros env now. unfold updateTemperature.
  destruct (negb (temperatureSupported (vars w'))); [exact H|].
  now apply acquire_flags.
Qed.

Lemma failedMethods_monotone_witness :
  is_failed vcgencmd
    (failedMethods
       (vars (World (fst (acquire Sample.env_pi 9 Sample.settled))
                [Timer 1 (Interval UPDATE_INTERVAL)] 2 false))) = true.
Proof.
  refine (proj1 (failedMethods_monotone
            (World Sample.settled [Timer 1 (Interval UPDATE_INTERVAL)] 2 false)
            _ [Request None; Tick 1; ExecDone Sample.env_pi 9] vcgencmd _ _)).
  - reflexivity.
  - reflexivity.
Defined.

(** ** The scheduler: phases of a run *)

(** In the variables left by module load, a cycle fails exactly when
    every probe fails, and then with the exhaustion error. *)
Lemma first_cycle_outcome env :
  (cycle_fails env (vars module_load) = all_fail env)
  /\ (cycle_fails env (vars module_load) = true ->
      snd (fst (readTemperature env (vars module_load))) = Err exhausted_message
      /\ workingMethod (fst (fst (readTemperature env (vars module_load)))) = None)
  /\ (cycle_fails env (vars module_load) = false ->
      workingMethod (fst (fst (readTemperature env (vars module_load)))) <> None).
Proof.
  unfold cycle_fails, all_fail.
  rewrite (readTemperature_unset env (vars module_load) eq_refl).
  cbn. split_probes; cbn; repeat split; try discriminate; auto.
Qed.

Lemma cycles_first_cycle es : cycles es = 0%nat <-> first_cycle es = None.
Proof.
  induction es as [|[id|env now|h] es IH]; cbn; try tauto.
  split; discriminate.
Qed.

Lemma cancels_commands tr effs id :
  cancels (List.map RunCommand tr ++ effs) id = cancels effs id.
Proof. unfold cancels. induction tr as [|m tr IH]; cbn; auto. Qed.

(** The first completed cycle decides the phase. *)
Lemma first_step_phase env now w r :
  step module_load (ExecDone env now) = Some (w, r) ->
  if cycle_fails env (vars module_load) then off w else active w.
Proof.
  cbn [step]. change (in_flight module_load) with true. cbv iota.
  destruct (acquire env now (vars module_load)) as [s effs] eqn:Hacq.
  intros H; injection H as <- _.
  rewrite acquire_unfold in Hacq.
  destruct (first_cycle_outcome env) as (_ & Hfail & Hok).
  destruct (cycle_fails env (vars module_load)) eqn:Hc.
  - destruct (Hfail eq_refl) as [Hres Hwm].
    destruct (readTemperature env (vars module_load)) as [[s1 r1] tr] eqn:Hrt.
    cbn [fst snd] in *. subst r1.
    assert (Hcl : consoleLogged s1 = false /\ updateIntervalId s1 = Some 1%nat).
    { rewrite (readTemperature_unset env (vars module_load) eq_refl) in Hrt.
      cbn in Hrt. revert Hrt. split_probes; cbn; intros Hrt;
        inversion Hrt; cbn; auto. }
    destruct Hcl as [Hcl Hid].
    unfold updateTemperature_callback in Hacq. cbn in Hacq.
    rewrite Hcl, Hid in Hacq. cbn in Hacq.
    injection Hacq as <- <-.
    unfold off; cbn. rewrite cancels_commands. cbn.
    repeat split; try reflexivity; try assumption.
  - specialize (Hok eq_refl).
    unfold cycle_fails in Hc.
    destruct (readTemperature env (vars module_load)) as [[s1 r1] tr] eqn:Hrt.
    cbn [fst snd] in *.
    destruct r1 as [temp|msg]; [|discriminate].
    assert (Hfr : temperatureSupported s1 = true
                  /\ updateIntervalId s1 = Some 1%nat).
    { rewrite (readTemperature_unset env (vars module_load) eq_refl) in Hrt.
      cbn in Hrt. revert Hrt. split_probes; cbn; intros Hrt;
        inversion Hrt; cbn; auto. }
    destruct Hfr as [Hts Hid].
    cbn in Hacq. injection Hacq as <- <-.
    unfold active; cbn. rewrite cancels_commands. cbn.
    repeat split; try reflexivity; try assumption.
Qed.

(** A cycle completed in the active phase: the working probe alone
    decides what is stored, and the phase stays. *)
Lemma active_cycle w env now w' r :
  active w ->
  step w (ExecDone env now) = Some (w', r) ->
  exists m,
    workingMethod (vars w) = Some m
    /\ snd (fst (readTemperature env (vars w))) = probe m env
    /\ currentTemperature (vars w')
       = match probe m env with
         | Ok temp => success_record now temp
         | Err message => failure_record now message
         end
    /\ active w' /\ in_flight w' = false.
Proof.
  intros (Hts & Hcl & Hwm & Hid & Htm) Hstep.
  destruct (workingMethod (vars w)) as [m|] eqn:Hm; [|congruence].
  exists m. split; [reflexivity|].
  pose proof (readTemperature_working env (vars w) m Hm) as Hrt.
  split; [rewrite Hrt; reflexivity|].
  cbn [step] in Hstep.
  destruct (in_flight w); [|discriminate].
  destruct (acquire env now (vars w)) as [s effs] eqn:Hacq.
  injection Hstep as <- _.
  unfold acquire in Hacq. rewrite Hrt in Hacq.
  unfold updateTemperature_callback in Hacq.
  destruct (probe m env) as [temp|msg]; cbn in Hacq.
  - injection Hacq as <- <-. unfold active; cbn. rewrite Htm.
    repeat split; auto; congruence.
  - rewrite Hcl in Hacq. cbn in Hacq.
    injection Hacq as <- <-. unfold active; cbn. rewrite Htm.
    repeat split; auto; congruence.
Qed.

Lemma step_active w e w' r : active w -> step w e = Some (w', r) -> active w'.
Proof.
  intros Hact Hstep. destruct e as [id|env now|h].
  - destruct Hact as (Hts & Hcl & Hwm & Hid & Htm).
    cbn [step] in Hstep. rewrite Htm in Hstep. cbn in Hstep.
    destruct id as [|[|id]]; cbn in Hstep; try discriminate.
    destruct (in_flight w); [discriminate|].
    injection Hstep as <- _.
    unfold active. rewrite call_updateTemperature_vars.
    unfold call_updateTemperature. rewrite Hts. cbn. auto.
  - destruct (active_cycle w env now w' r Hact Hstep) as (m & _ & _ & _ & H & _).
    exact H.
  - cbn in Hstep. injection Hstep as <- _. exact Hact.
Qed.

Lemma step_off w e w' r : off w -> step w e = Some (w', r) -> w' = w.
Proof.
  intros (Hts & Htm & Hfl & _) Hstep. destruct e as [id|env now|h]; cbn in Hstep.
  - rewrite Htm in Hstep. discriminate.
  - rewrite Hfl in Hstep. discriminate.
  - now injection Hstep as <- _.
Qed.

Lemma run_active es : forall w w', active w -> run w es = Some w' -> active w'.
Proof.
  induction es as [|e es IH]; intros w w' Hact Hrun; cbn in Hrun.
  - now injection Hrun as <-.
  - destruct (step w e) as [[w1 r]|] eqn:Hstep; [|discriminate].
    exact (IH w1 w' (step_active w e w1 r Hact Hstep) Hrun).
Qed.

Lemma run_off es : forall w w', off w -> run w es = Some w' -> w' = w.
Proof.
  induction es as [|e es IH]; intros w w' Hoff Hrun; cbn in Hrun.
  - now injection Hrun as <-.
  - destruct (step w e) as [[w1 r]|] eqn:Hstep; [|discriminate].
    pose proof (step_off w e w1 r Hoff Hstep) as ->.
    exact (IH w w' Hoff Hrun).
Qed.

(** Every run from module load is in one of three phases, decided by
    its first completed cycle. *)
Lemma run_from_load es : forall w,
  run module_load es = Some w ->
  match first_cycle es with
  | None => w = module_load
  | Some env => if cycle_fails env (vars module_load) then off w else active w
  end.
Proof.
  induction es as [|e es IH]; intros w Hrun.
  - cbn in Hrun. now injection Hrun as <-.
  - cbn [run] in Hrun.
    destruct (step module_load e) as [[w1 r]|] eqn:Hstep; [|discriminate].
    destruct e as [id|env now|h]; cbn [first_cycle].
    + cbn in Hstep. destruct id as [|[|id]]; discriminate.
    + pose proof (first_step_phase env now w1 r Hstep) as Hph.
      destruct (cycle_fails env (vars module_load)).
      * now rewrite (run_off es w1 w Hph Hrun).
      * exact (run_active es w1 w Hph Hrun).
    + cbn in Hstep. injection Hstep as <- _. now apply IH.
Qed.

Lemma active_not_off w : active w -> ~ disabled w.
Proof. intros (Hts & _) [Hd _]. congruence. Qed.

Lemma acquire_exactly_one env now s :
  exactly_one (currentTemperature (fst (acquire env now s))) = true.
Proof.
  rewrite acquire_cache. destruct (snd (fst (readTemperature env s))); reflexivity.
Qed.

Lemma run_cache es : forall w w',
  run w es = Some w' ->
  (cycles es = 0%nat ->
   currentTemperature (vars w') = currentTemperature (vars w))
  /\ (cycles es <> 0%nat -> exactly_one (currentTemperature (vars w')) = true).
Proof.
  induction es as [|e es IH]; intros w w' Hrun; cbn in Hrun.
  - injection Hrun as <-. cbn. split; [reflexivity|congruence].
  - destruct (step w e) as [[w1 r]|] eqn:Hstep; [|discriminate].
    destruct (IH w1 w' Hrun) as [Hsame Hone].
    pose proof (step_vars w e w1 r Hstep) as Hv.
    destruct e as [id|env now|h]; cbn [cycles].
    + rewrite <- Hv. auto.
    + split; [discriminate|]. intros _.
      destruct (Nat.eq_dec (cycles es) 0) as [Hz|Hnz]; [|auto].
      rewrite (Hsame Hz). destruct Hv as [_ ->]. apply acquire_exactly_one.
    + rewrite <- Hv. auto.
Qed.

(** ** The cache *)

(** C4. Along every run from module load the cache record has both
    [temperature] and [error] null exactly as long as no cycle has
    completed; once a cycle has completed, exactly one of the two is
    not null.  Each completed cycle stores the temperature with a null
    error when the coordinator called back with a value, and a null
    temperature with the error's message when it called back with an
    error. *)
Theorem cache_exactly_one (es : list event) (w : world)
    (Hrun : run module_load es = Some w) :
  ((temperature (currentTemperature (vars w)) = None
    /\ error (currentTemperature (vars w)) = None) <-> cycles es = 0%nat)
  /\ (cycles es <> 0%nat -> exactly_one (currentTemperature (vars w)) = true)
  /\ (forall env now,
        currentTemperature (fst (acquire env now (vars w)))
        = match snd (fst (readTemperature env (vars w))) with
          | Ok temp => Reading (Some temp) (Some now) "C" None
          | Err message => Reading None (Some now) "C" (Some message)
          end
        /\ exactly_one (currentTemperature (fst (acquire env now (vars w))))
           = true).
Proof.
  destruct (run_cache es module_load w Hrun) as [Hsame Hone].
  split; [|split].
  - split.
    + intros [Ht He].
      destruct (Nat.eq_dec (cycles es) 0) as [Hz|Hnz]; [exact Hz|].
      specialize (Hone Hnz). unfold exactly_one in Hone.
      rewrite Ht, He in Hone. discriminate.
    + intros Hz. rewrite (Hsame Hz). split; reflexivity.
  - exact Hone.
  - intros env now. split; [apply acquire_cache|apply acquire_exactly_one].
Qed.

Lemma cache_exactly_one_witness :
  exactly_one
    (currentTemperature
       (vars (World (fst (acquire Sample.env_none 9
                            (fst (acquire Sample.env_linux 5
                                    (vars module_load)))))
                [Timer 1 (Interval UPDATE_INTERVAL)] 2 false))) = true.
Proof.
  refine (proj1 (proj2 (cache_exactly_one
            [ExecDone Sample.env_linux 5; Request None; Tick 1;
             ExecDone Sample.env_none 9] _ _)) _).
  - reflexivity.
  - cbn. discriminate.
Defined.

(** ** Exhaustion *)

(** C10. Along every run from module load, once a cycle has completed
    either [workingMethod] is set or [temperatureSupported] is false.
    So a cycle whose coordinator calls back with the exhaustion error
    is the first cycle of the run, and no later cycle stores the
    exhaustion error in the cache. *)
Theorem exhaustion_only_first_cycle (es : list event) (w : world)
    (Hrun : run module_load es = Some w) :
  (cycles es <> 0%nat ->
   workingMethod (vars w) <> None \/ temperatureSupported (vars w) = false)
  /\ (forall env now w' r,
        step w (ExecDone env now) = Some (w', r) ->
        snd (fst (readTemperature env (vars w))) = Err exhausted_message ->
        cycles es = 0%nat)
  /\ (forall env now w' r,
        step w (ExecDone env now) = Some (w', r) ->
        cycles es <> 0%nat ->
        error (currentTemperature (vars w')) <> Some exhausted_message).
Proof.
  pose proof (run_from_load es w Hrun) as Hph.
  pose proof (cycles_first_cycle es) as Hcy.
  destruct (first_cycle es) as [env0|].
  - assert (Hnz : cycles es <> 0%nat) by (intros H; apply Hcy in H; discriminate).
    destruct (cycle_fails env0 (vars module_load)).
    + destruct Hph as (Hts & Htm & Hfl & _).
      split; [auto|]. split; intros env now w' r Hstep; cbn in Hstep;
        rewrite Hfl in Hstep; discriminate.
    + split; [intros _; left; apply Hph|].
      split; intros env now w' r Hstep.
      * destruct (active_cycle w env now w' r Hph Hstep) as (m & _ & Hr & _).
        rewrite Hr. intros H. now apply probe_error_not_exhausted in H.
      * intros _.
        destruct (active_cycle w env now w' r Hph Hstep) as (m & _ & _ & Hc & _).
        rewrite Hc. pose proof (probe_error_not_exhausted m env) as Hne.
        destruct (probe m env); cbn; congruence.
  - assert (Hz : cycles es = 0%nat) by now apply Hcy.
    split; [congruence|]. split; intros; [exact Hz|congruence].
Qed.

Lemma exhaustion_only_first_cycle_witness :
  cycles [Request None] = 0%nat
  /\ (workingMethod (fst (acquire Sample.env_none 9
                            (fst (acquire Sample.env_linux 5
                                    (vars module_load))))) <> None
      \/ temperatureSupported
           (fst (acquire Sample.env_none 9
                   (fst (acquire Sample.env_linux 5 (vars module_load)))))
         = false).
Proof.
  split.
  - refine (proj1 (proj2 (exhaustion_only_first_cycle [Request None]
              module_load _)) Sample.env_none 3%Z _ None _ _);
      reflexivity.
  - assert (Hrun : run module_load
                     [ExecDone Sample.env_linux 5; Tick 1;
                      ExecDone Sample.env_none 9]
                   = Some (World
                             (fst (acquire Sample.env_none 9
                                     (fst (acquire Sample.env_linux 5
                                             (vars module_load)))))
                             [Timer 1 (Interval UPDATE_INTERVAL)] 2 false))
      by (vm_compute; reflexivity).
    pose proof (exhaustion_only_first_cycle _ _ Hrun) as H.
    destruct H as [H _]. apply H. cbn [cycles]. discriminate.
Defined.

(** ** Disabling *)

(** C2. Along every run from module load the scheduler is disabled
    ([temperatureSupported] false and no timer live) exactly when the
    first completed cycle of the run failed.  Once disabled, no tick
    and no cycle completion can happen any more and the process never
    changes again, so the cache keeps the failure record.  When the
    first cycle succeeded, the flag stays up and the recurring timer
    stays live; a later cycle that fails stores its error in the cache
    and leaves the timer live, and the next tick starts a new cycle. *)
Theorem disabled_iff_first_cycle_fails (es : list event) (w : world)
    (Hrun : run module_load es = Some w) :
  (disabled w <->
   exists env, first_cycle es = Some env
               /\ cycle_fails env (vars module_load) = true)
  /\ (disabled w ->
      (forall id, step w (Tick id) = None)
      /\ (forall env now, step w (ExecDone env now) = None)
      /\ (forall es' w', run w es' = Some w' -> w' = w)
      /\ temperature (currentTemperature (vars w)) = None
      /\ error (currentTemperature (vars w)) <> None)
  /\ (forall env0,
        first_cycle es = Some env0 ->
        cycle_fails env0 (vars module_load) = false ->
        ticking w
        /\ forall env now w' r message,
             step w (ExecDone env now) = Some (w', r) ->
             snd (fst (readTemperature env (vars w))) = Err message ->
             currentTemperature (vars w')
             = Reading None (Some now) "C" (Some message)
             /\ ticking w'
             /\ exists w'', step w' (Tick 1) = Some (w'', None)
                            /\ in_flight w'' = true).
Proof.
  pose proof (run_from_load es w Hrun) as Hph.
  assert (Htick : forall v, active v -> ticking v).
  { intros v (Hts & _ & _ & Hid & Htm). split; [exact Hts|].
    exists 1%nat. rewrite Htm. split; [exact Hid|reflexivity]. }
  destruct (first_cycle es) as [env0|].
  - destruct (cycle_fails env0 (vars module_load)) eqn:Hc.
    + assert (Hd : disabled w) by (split; apply Hph).
      split; [|split].
      * split; [intros _; now exists env0|intros _; exact Hd].
      * intros _. destruct Hph as (Hts & Htm & Hfl & Hwm & Htemp & Herr).
        split; [|split; [|split; [|split]]].
        -- intros id. cbn. now rewrite Htm.
        -- intros env now. cbn. now rewrite Hfl.
        -- intros es' w' Hrun'. apply (run_off es' w w'); [|exact Hrun'].
           repeat split; assumption.
        -- exact Htemp.
        -- rewrite Herr. discriminate.
      * intros env1 H1 H2. injection H1 as <-. congruence.
    + split; [|split].
      * split.
        -- intros Hd. now apply active_not_off in Hd.
        -- intros (env & H1 & H2). injection H1 as <-. congruence.
      * intros Hd. now apply active_not_off in Hd.
      * intros env1 H1 _. split; [now apply Htick|].
        intros env now w' r message Hstep Hres.
        destruct (active_cycle w env now w' r Hph Hstep)
          as (m & Hm & Hr & Hcache & Hact' & Hfl').
        rewrite Hr in Hres. rewrite Hres in Hcache.
        split; [exact Hcache|]. split; [now apply Htick|].
        destruct Hact' as (Hts' & _ & _ & _ & Htm').
        cbn [step]. rewrite Htm', Hfl'. cbn.
        eexists. split; [reflexivity|].
        unfold call_updateTemperature. rewrite Hts'. reflexivity.
  - subst w. split; [|split].
    + split; [intros [Hd _]; discriminate|intros (env & H & _); discriminate].
    + intros [Hd _]; discriminate.
    + intros env0 H; discriminate.
Qed.

Lemma disabled_iff_first_cycle_fails_witness :
  disabled (World (fst (acquire Sample.env_none 7 (vars module_load))) [] 2 false).
Proof.
  refine (proj2 (proj1 (disabled_iff_first_cycle_fails
            [Request None; ExecDone Sample.env_none 7]
            (World (fst (acquire Sample.env_none 7 (vars module_load))) [] 2 false)
            _)) _).
  - reflexivity.
  - exists Sample.env_none. split; reflexivity.
Defined.

(** ** Start-up *)

(** C8, as the specification states it, fails on the server: the first
    acquisition is in flight when module load ends, and no one-shot
    timer exists. *)
Lemma module_load_not_delayed : ~ delayed_start module_load.
Proof. intros [Hfl _]. cbn in Hfl. discriminate. Qed.

(** C8, amended.  When module load ends the first acquisition has been
    started by the direct call [updateTemperature()], the only live
    timer is the recurring one, of ten minutes, and its identity is in
    [updateIntervalId].  The delay of one second belongs to the browser
    side: once the document has loaded, [init] sets a one-shot timer of
    1000 ms for the first fetch and, next to it, the recurring timer;
    while the document is loading it only waits for the event. *)
Theorem startup_schedule :
  in_flight module_load = true
  /\ timers module_load = [Timer 1 (Interval UPDATE_INTERVAL)]
  /\ updateIntervalId (vars module_load) = Some 1%nat
  /\ UPDATE_INTERVAL = 600000%Z
  /\ Client.init Client.complete
     = [Client.SetTimeout Client.h_fetchTemperature 1000;
        Client.SetInterval Client.h_fetchTemperature 600000]
  /\ Client.init Client.interactive = Client.init Client.complete
  /\ Client.init Client.loading
     = [Client.AddEventListener "DOMContentLoaded" Client.h_init].
Proof. repeat split. Qed.

(** ** Strings, patterns and numbers: helper lemmas *)

Local Close Scope string_scope.

(** ** Doubles: helper lemmas *)


Lemma round_pos_not_nan a b : JsNum.isNaN (JsNum.round_pos a b) = false.
Proof.
  unfold JsNum.round_pos.
  destruct (_ && _); reflexivity.
Qed.

Lemma number_not_nan q : JsNum.isNaN (JsNum.number q) = false.
Proof.
  unfold JsNum.number. destruct (Qnum (Qred q)); [reflexivity| |].
  - apply round_pos_not_nan.
  - pose proof (round_pos_not_nan (Z.pos p) (Z.pos (Qden (Qred q)))) as H.
    destruct (JsNum.round_pos _ _); [discriminate|reflexivity|reflexivity].
Qed.


Lemma round_half_even_nonneg n d :
  (0 <= n)%Z -> (0 < d)%Z -> (0 <= JsNum.round_half_even n d)%Z.
Proof.
  intros Hn Hd. unfold JsNum.round_half_even.
  pose proof (Z.div_pos n d Hn Hd).
  repeat match goal with |- context [if ?c then _ else _] => destruct c end; lia.
Qed.

(** Rounding a positive ratio gives a number that is not negative, or
    the positive infinity. *)
Lemma round_pos_sign a b :
  (0 < a)%Z -> (0 < b)%Z ->
  match JsNum.round_pos a b with
  | JsNum.NaN => False
  | JsNum.Infinity s => s = false
  | JsNum.Num q => (0 <= q)%Q
  end.
Proof.
  intros Ha Hb. unfold JsNum.round_pos.
  destruct (_ && _); [reflexivity|].
  rewrite Qred_correct. unfold Qle. cbn. rewrite Z.mul_1_r.
  apply Z.mul_nonneg_nonneg.
  - apply round_half_even_nonneg.
    + apply Z.mul_nonneg_nonneg; [lia|]. apply Z.pow_nonneg. lia.
    + apply Z.mul_pos_pos; [lia|]. apply Z.pow_pos_nonneg; lia.
  - apply Z.pow_nonneg. lia.
Qed.

Lemma number_sign q :
  (0 <= q)%Q ->
  match JsNum.number q with
  | JsNum.NaN => False
  | JsNum.Infinity s => s = false
  | JsNum.Num q' => (0 <= q')%Q
  end.
Proof.
  intros Hq. unfold JsNum.number.
  assert (Hr : (0 <= Qred q)%Q) by now rewrite Qred_correct.
  destruct (Qred q) as [n d]. cbn [Qnum Qden].
  destruct n as [|a|a].
  - cbn. apply Qle_refl.
  - apply round_pos_sign; lia.
  - unfold Qle in Hr. cbn in Hr. lia.
Qed.




Lemma span_stops p xs rest :
  List.forallb p xs = true -> stops p rest = true ->
  JsString.span p (xs ++ rest) = (xs, rest).
Proof.
  intros Hxs Hrest. induction xs as [|x xs IH]; cbn in *.
  - destruct rest as [|c rest]; cbn in *; [reflexivity|].
    destruct (p c); [discriminate|reflexivity].
  - apply andb_true_iff in Hxs as [Hx Hxs]. rewrite Hx, (IH Hxs). reflexivity.
Qed.


Lemma plus_loop_greedy p k xs rest : forall acc r,
  List.forallb p xs = true -> xs <> [] -> stops p rest = true ->
  k (List.rev acc ++ xs)%list rest = Some r ->
  Regex.plus_loop p k acc (xs ++ rest) = Some r.
Proof.
  induction xs as [|x xs IH]; intros acc r Hxs Hne Hrest Hk; [congruence|].
  cbn in Hxs. apply andb_true_iff in Hxs as [Hx Hxs].
  cbn [app Regex.plus_loop]. rewrite Hx.
  destruct xs as [|y xs].
  - cbn [app].
    assert (Hnone : Regex.plus_loop p k (x :: acc) rest = None).
    { destruct rest as [|c rest]; cbn in *; [reflexivity|].
      destruct (p c); [discriminate|reflexivity]. }
    rewrite Hnone. exact Hk.
  - rewrite (IH (x :: acc) r Hxs); [reflexivity|discriminate|exact Hrest|].
    cbn [List.rev]. rewrite <- app_assoc. exact Hk.
Qed.

Lemma match_here_plus p cap re xs rest caps :
  List.forallb p xs = true -> xs <> [] -> stops p rest = true ->
  Regex.match_here re rest = Some caps ->
  Regex.match_here (Regex.Atom p Regex.Plus cap :: re) (xs ++ rest)
  = Some (if cap then xs :: caps else caps).
Proof.
  intros Hxs Hne Hrest Hre. cbn [Regex.match_here Regex.qnt Regex.cls Regex.captured].
  apply plus_loop_greedy; try assumption.
  cbn. rewrite Hre. reflexivity.
Qed.

Lemma match_here_lit c re s :
  Regex.match_here (Regex.lit c :: re) (c :: s) = Regex.match_here re s.
Proof.
  cbn. rewrite N.eqb_refl. destruct (Regex.match_here re s); reflexivity.
Qed.

Lemma match_here_lits cs re s :
  Regex.match_here (List.map Regex.lit cs ++ re) (cs ++ s) = Regex.match_here re s.
Proof.
  induction cs as [|c cs IH]; [reflexivity|].
  cbn [List.map app]. rewrite match_here_lit. exact IH.
Qed.

Lemma search_after_prefix re pre s :
  no_match_in_prefix re (List.length pre) (pre ++ s) = true ->
  Regex.search re (pre ++ s) = Regex.search re s.
Proof.
  induction pre as [|c pre IH]; intros H; [reflexivity|].
  cbn [List.length no_match_in_prefix app] in H.
  cbn [app]. 
  destruct (Regex.match_here re (c :: pre ++ s)) eqn:Hm; [discriminate|].
  assert (Hs : Regex.search re (c :: pre ++ s) = Regex.search re (pre ++ s)).
  { destruct re; cbn [Regex.search]; rewrite Hm; reflexivity. }
  rewrite Hs. now apply IH.
Qed.

Lemma search_here re s caps :
  Regex.match_here re s = Some caps -> Regex.search re s = Some caps.
Proof. intros H. destruct s; cbn; rewrite H; reflexivity. Qed.

Lemma is_digit_range c : JsString.is_digit c = true -> 48 <= c <= 57.
Proof.
  unfold JsString.is_digit. intros H. apply andb_true_iff in H as [H1 H2].
  apply N.leb_le in H1, H2. lia.
Qed.

Lemma digit_not_space c : JsString.is_digit c = true -> JsString.is_space c = false.
Proof.
  intros H. apply is_digit_range in H. unfold JsString.is_space.
  repeat match goal with
    | |- context [(c =? ?k)] => rewrite (proj2 (N.eqb_neq c k)) by lia
    end.
  rewrite (proj2 (N.leb_gt 8192 c)) by lia. reflexivity.
Qed.

Lemma digit_not c k : JsString.is_digit c = true -> (k < 48 \/ 57 < k) -> (c =? k) = false.
Proof. intros H Hk. apply is_digit_range in H. apply N.eqb_neq. lia. Qed.

Lemma digit_not' c k : JsString.is_digit c = true -> (k < 48 \/ 57 < k) -> (k =? c) = false.
Proof. intros H Hk. apply is_digit_range in H. apply N.eqb_neq. lia. Qed.



Lemma fold_digits_nonneg ds : forall acc,
  (0 <= acc)%Z ->
  (0 <= fold_left (fun a c => (10 * a + JsNum.digit_val c)%Z) ds acc)%Z.
Proof.
  induction ds as [|d ds IH]; intros acc Hacc; cbn [fold_left]; [exact Hacc|].
  apply IH. unfold JsNum.digit_val.
  pose proof (N2Z.is_nonneg (d - 48)). lia.
Qed.

Lemma digits_val_nonneg ds : (0 <= JsNum.digits_val ds)%Z.
Proof. unfold JsNum.digits_val. apply fold_digits_nonneg. apply Z.le_refl. Qed.








Lemma truthy_app_r a b : JsString.truthy b = true -> JsString.truthy (a ++ b) = true.
Proof. destruct a; cbn; auto. Qed.






Local Open Scope string_scope.

(** ** The probes *)



(* ===================================================================== *)
(** * Further properties of the server *)
(* ===================================================================== *)

(** ** What a run never undoes *)

Lemma acquire_settled env now s m :
  workingMethod s = Some m ->
  workingMethod (fst (acquire env now s)) = Some m
  /\ failedMethods (fst (acquire env now s)) = failedMethods s.
Proof.
  intros Hm. rewrite acquire_unfold. cbn [fst].
  destruct (callback_frame (snd (fst (readTemperature env s))) now
              (fst (fst (readTemperature env s)))) as [Hf Hw].
  rewrite Hf, Hw, (readTemperature_working env s m Hm). cbn. auto.
Qed.

Lemma run_settled (es : list event) :
  forall (w w' : world) (m : method),
    run w es = Some w' ->
    workingMethod (vars w) = Some m ->
    workingMethod (vars w') = Some m
    /\ failedMethods (vars w') = failedMethods (vars w).
Proof.
  induction es as [|e es IH]; intros w w' m Hrun Hm; cbn in Hrun.
  - injection Hrun as <-. auto.
  - destruct (step w e) as [[w1 r]|] eqn:Hstep; [|discriminate].
    pose proof (step_vars w e w1 r Hstep) as Hv.
    assert (H1 : workingMethod (vars w1) = Some m
                 /\ failedMethods (vars w1) = failedMethods (vars w)).
    { destruct e as [id|env now|h]; try (rewrite Hv; auto).
      destruct Hv as [_ ->]. now apply acquire_settled. }
    destruct H1 as [Hm1 Hf1].
    destruct (IH w1 w' m Hrun Hm1) as [Hm' Hf']. split; congruence.
Qed.

(** Once a working method is known, no event changes it, and no event
    changes a flag of [failedMethods] either: from then on the process
    keeps asking the same command, whatever that command answers. *)
Theorem working_method_write_once (es : list event) (w w' : world) (m : method)
    (Hrun : run w es = Some w')
    (Hset : workingMethod (vars w) = Some m) :
  workingMethod (vars w') = Some m
  /\ failedMethods (vars w') = failedMethods (vars w).
Proof. exact (run_settled es w w' m Hrun Hset). Qed.

Lemma working_method_write_once_witness :
  workingMethod
    (vars (World (fst (acquire Sample.env_pi 9 Sample.settled))
             [Timer 1 (Interval UPDATE_INTERVAL)] 2 false))
  = Some thermal_zone.
Proof.
  refine (proj1 (working_method_write_once
            [Tick 1; ExecDone Sample.env_pi 9]
            (World Sample.settled [Timer 1 (Interval UPDATE_INTERVAL)] 2 false)
            _ thermal_zone _ _)).
  - reflexivity.
  - reflexivity.
Defined.

Lemma readTemperature_frame env s :
  consoleLogged (fst (fst (readTemperature env s))) = consoleLogged s
  /\ temperatureSupported (fst (fst (readTemperature env s)))
     = temperatureSupported s
  /\ updateIntervalId (fst (fst (readTemperature env s))) = updateIntervalId s
  /\ currentTemperature (fst (fst (readTemperature env s)))
     = currentTemperature s.
Proof.
  destruct (workingMethod s) as [m|] eqn:Hm.
  - rewrite (readTemperature_working env s m Hm). cbn. auto.
  - rewrite (readTemperature_unset env s Hm).
    destruct s as [cl ts id [fv ft fs] wm cur].
    destruct fv, ft, fs; cbn; split_probes; cbn; auto.
Qed.

Lemma acquire_switches env now s :
  (temperatureSupported (fst (acquire env now s)) = true ->
   temperatureSupported s = true)
  /\ consoleLogged (fst (acquire env now s)) = true.
Proof.
  rewrite acquire_unfold. cbn [fst].
  destruct (readTemperature_frame env s) as (Hcl & Hts & _ & _).
  unfold updateTemperature_callback.
  destruct (snd (fst (readTemperature env s))); cbn.
  - rewrite Hts. auto.
  - rewrite Hcl, Hts. destruct (consoleLogged s); cbn.
    + auto.
    + destruct (updateIntervalId (fst (fst (readTemperature env s)))); cbn;
        (split; [discriminate|reflexivity]).
Qed.

(** Disabling is for good and the first-attempt mark is never taken
    back: along any sequence of events [temperatureSupported] never
    goes from false to true and [consoleLogged] never goes from true to
    false; and every completed cycle leaves [consoleLogged] true. *)
Theorem switches_never_reset (es : list event) :
  forall (w w' : world),
    run w es = Some w' ->
    (temperatureSupported (vars w) = false ->
     temperatureSupported (vars w') = false)
    /\ (consoleLogged (vars w) = true -> consoleLogged (vars w') = true)
    /\ (cycles es <> 0%nat -> consoleLogged (vars w') = true).
Proof.
  induction es as [|e es IH]; intros w w' Hrun; cbn in Hrun.
  - injection Hrun as <-. cbn. repeat split; auto; congruence.
  - destruct (step w e) as [[w1 r]|] eqn:Hstep; [|discriminate].
    pose proof (step_vars w e w1 r Hstep) as Hv.
    destruct (IH w1 w' Hrun) as (Hts & Hcl & Hcy).
    destruct e as [id|env now|h]; cbn [cycles]; try (rewrite <- Hv; auto).
    destruct Hv as [_ Hv].
    destruct (acquire_switches env now (vars w)) as [Hsw Hlog].
    rewrite <- Hv in Hsw, Hlog.
    split; [|split].
    + intros Hoff. apply Hts.
      destruct (temperatureSupported (vars w1)); [|reflexivity].
      rewrite (Hsw eq_refl) in Hoff. discriminate.
    + intros _. now apply Hcl.
    + intros _. now apply Hcl.
Qed.

Lemma switches_never_reset_witness :
  consoleLogged
    (vars (World (fst (acquire Sample.env_none 9 Sample.settled))
             [Timer 1 (Interval UPDATE_INTERVAL)] 2 false)) = true.
Proof.
  refine (proj1 (proj2 (switches_never_reset
            [Tick 1; ExecDone Sample.env_none 9]
            (World Sample.settled [Timer 1 (Interval UPDATE_INTERVAL)] 2 false)
            _ _)) _).
  - reflexivity.
  - reflexivity.
Defined.

(** ** Flags and working method, turn by turn *)

Lemma end_turn_called now s ts next r :
  t_waiting (end_turn now s ts next (Called r)) = None
  /\ failedMethods (t_vars (end_turn now s ts next (Called r))) = failedMethods s
  /\ workingMethod (t_vars (end_turn now s ts next (Called r))) = workingMethod s.
Proof.
  destruct (callback_frame r now s) as [Hf Hw].
  unfold end_turn. destruct (updateTemperature_callback r now s) as [s' effs].
  cbn in *. auto.
Qed.

Lemma turn_update_order now w :
  t_waiting w = None -> flags_in_order w ->
  flags_in_order (turn_updateTemperature now w).
Proof.
  intros Hw Hinv. unfold turn_updateTemperature.
  destruct (negb (temperatureSupported (t_vars w))); [exact Hinv|].
  unfold flags_in_order in Hinv. rewrite Hw in Hinv.
  unfold readTemperature_start.
  destruct (workingMethod (t_vars w)) as [m|] eqn:Hm.
  - unfold flags_in_order. cbn. auto.
  - unfold tryNextMethod_start.
    pose proof (Hinv vcgencmd) as Hv. pose proof (Hinv thermal_zone) as Ht.
    pose proof (Hinv sensors) as Hs. cbn in Hv, Ht, Hs. rewrite Hv, Ht, Hs.
    cbn [negb].
    destruct (end_turn_called now (t_vars w) (t_timers w) (t_next_id w)
                (Err exhausted_message)) as (H1 & H2 & H3).
    unfold flags_in_order. rewrite H1, H2, H3, Hm. exact Hinv.
Qed.

Lemma exec_callback_order now w r wt :
  t_waiting w = Some wt -> flags_in_order w ->
  flags_in_order
    (end_turn now (fst (exec_callback wt r (t_vars w))) (t_timers w)
       (t_next_id w) (snd (exec_callback wt r (t_vars w)))).
Proof.
  intros Hw Hinv. unfold flags_in_order in Hinv. rewrite Hw in Hinv.
  destruct wt as [m|p]; destruct Hinv as [Hm Hfl]; cbn [exec_callback fst snd].
  - destruct (end_turn_called now (t_vars w) (t_timers w) (t_next_id w)
                (probe_result m r)) as (H1 & H2 & H3).
    unfold flags_in_order. rewrite H1, H2, H3, Hm. exact Hfl.
  - destruct (probe_result p r) as [temp|msg]; cbn [fst snd].
    + destruct (end_turn_called now (set_working p (t_vars w)) (t_timers w)
                  (t_next_id w) (Ok temp)) as (H1 & H2 & H3).
      unfold flags_in_order. rewrite H1, H2, H3. cbn. exact Hfl.
    + pose proof (Hfl vcgencmd) as Hv. pose proof (Hfl thermal_zone) as Ht.
      pose proof (Hfl sensors) as Hs. cbn in Hv, Ht, Hs.
      unfold tryNextMethod_start.
      destruct p; cbn in Hv, Ht, Hs; cbn [mark_failed failedMethods
        f_vcgencmd f_thermal_zone f_sensors negb];
        rewrite ?Hv, ?Ht, ?Hs; cbn [negb].
      * unfold flags_in_order. cbn. rewrite Ht, Hs. split; [exact Hm|].
        intros q; destruct q; reflexivity.
      * unfold flags_in_order. cbn. rewrite Hv, Hs. split; [exact Hm|].
        intros q; destruct q; reflexivity.
      * destruct (end_turn_called now (mark_failed sensors (t_vars w))
                    (t_timers w) (t_next_id w) (Err exhausted_message))
          as (H1 & H2 & H3).
        unfold flags_in_order. rewrite H1, H2, H3. cbn. rewrite Hm, Hv, Ht.
        intros q; destruct q; reflexivity.
Qed.

Lemma turn_step_order w e w' :
  flags_in_order w -> turn_step w e = Some w' -> flags_in_order w'.
Proof.
  intros Hinv Hstep. destruct e as [id now|r now|h]; cbn in Hstep.
  - destruct (find_timer id (t_timers w)) as [t|]; [|discriminate].
    destruct (t_waiting w) eqn:Hw; [discriminate|].
    pose proof (turn_update_order now w Hw Hinv) as H1.
    destruct (kind t); injection Hstep as <-; exact H1.
  - destruct (t_waiting w) as [wt|] eqn:Hw; [|discriminate].
    pose proof (exec_callback_order now w r wt Hw Hinv) as H1.
    destruct (exec_callback wt r (t_vars w)) as [s1 p].
    injection Hstep as <-. exact H1.
  - injection Hstep as <-. exact Hinv.
Qed.

Lemma turn_run_order es : forall w w',
  flags_in_order w -> turn_run w es = Some w' -> flags_in_order w'.
Proof.
  induction es as [|e es IH]; intros w w' Hinv Hrun; cbn in Hrun.
  - now injection Hrun as <-.
  - destruct (turn_step w e) as [w1|] eqn:Hstep; [|discriminate].
    exact (IH w1 w' (turn_step_order w e w1 Hinv Hstep) Hrun).
Qed.

(** With each [exec] callback taken as a turn of its own, so that the
    states between the callbacks of a cycle are there: in every state
    reached from module load the flags follow the priority order.
    While the walk of [tryNextMethod] waits for probe [p], no working
    method is known and exactly the probes before [p] are flagged (none
    while it waits for [vcgencmd]); once a working method is known,
    exactly the probes before it are flagged, so the working method
    itself never is; with no working method and no command
    outstanding, all three are flagged. *)
Theorem flags_follow_priority (now : Z) (es : list turn_event) (w : turn_world)
    (Hrun : turn_run (turn_module_load now) es = Some w) :
  flags_in_order w.
Proof.
  apply (turn_run_order es (turn_module_load now) w); [|exact Hrun].
  unfold flags_in_order. cbn. split; [reflexivity|].
  intros q; destruct q; reflexivity.
Qed.

Lemma flags_follow_priority_witness :
  flags_in_order
    (TurnWorld (mark_failed vcgencmd (t_vars (turn_module_load 0)))
       [Timer 1 (Interval UPDATE_INTERVAL)] 2 (Some (Chain thermal_zone))).
Proof.
  assert (Hrun : turn_run (turn_module_load 0)
                   [TurnRequest None; ExecCallback Sample.down 3]
                 = Some (TurnWorld
                           (mark_failed vcgencmd (t_vars (turn_module_load 0)))
                           [Timer 1 (Interval UPDATE_INTERVAL)] 2
                           (Some (Chain thermal_zone))))
    by reflexivity.
  exact (flags_follow_priority 0 _ _ Hrun).
Defined.

(** ** A cycle is the chain of its callbacks *)

Lemma drive_unset env s :
  drive 3 env s (tryNextMethod_start s) = Some (try_in_order env priority s).
Proof.
  destruct s as [cl ts id [fv ft fs] wm cur].
  unfold tryNextMethod_start.
  destruct (tryVcgencmd (env vcgencmd)) eqn:Ev;
    destruct (tryThermalZone (env thermal_zone)) eqn:Et;
    destruct (trySensors (env sensors)) eqn:Es;
    destruct fv, ft, fs; cbn;
    rewrite ?Ev, ?Et, ?Es; cbn;
    rewrite ?Ev, ?Et, ?Es; cbn;
    rewrite ?Ev, ?Et, ?Es; cbn; reflexivity.
Qed.

(** Chaining the [exec] callbacks of a cycle, each command answering
    as the environment says, ends after at most three callbacks and
    gives exactly the outcome of [readTemperature]: the same variables,
    the same result handed to the callback and the same commands in the
    same order. *)
Theorem cycle_is_chain_of_callbacks (env : exec_env) (s : state) :
  drive 3 env s (readTemperature_start s) = Some (readTemperature env s).
Proof.
  unfold readTemperature_start.
  destruct (workingMethod s) as [m|] eqn:Hm.
  - rewrite (readTemperature_working env s m Hm).
    destruct m; reflexivity.
  - rewrite (readTemperature_unset env s Hm). apply drive_unset.
Qed.

(** ** The cache along a run *)

Lemma run_stamp (es : list event) :
  forall w w',
    run w es = Some w' ->
    timestamp (currentTemperature (vars w'))
    = match last_now es with
      | Some t => Some t
      | None => timestamp (currentTemperature (vars w))
      end
    /\ (unit_ (currentTemperature (vars w)) = "C" ->
        unit_ (currentTemperature (vars w')) = "C").
Proof.
  induction es as [|e es IH]; intros w w' Hrun; cbn in Hrun.
  - injection Hrun as <-. cbn. auto.
  - destruct (step w e) as [[w1 r]|] eqn:Hstep; [|discriminate].
    pose proof (step_vars w e w1 r Hstep) as Hv.
    destruct (IH w1 w' Hrun) as [Hst Hun].
    destruct e as [id|env now|h]; cbn [last_now]; try (rewrite <- Hv; auto).
    destruct Hv as [_ Hv].
    assert (Hc : timestamp (currentTemperature (vars w1)) = Some now
                 /\ unit_ (currentTemperature (vars w1)) = "C").
    { rewrite Hv, acquire_cache.
      destruct (snd (fst (readTemperature env (vars w)))); cbn; auto. }
    destruct Hc as [Hc1 Hc2]. rewrite Hst, Hc1.
    split; [destruct (last_now es); reflexivity|auto].
Qed.

(** In every state reached from module load the cache's unit is ['C'],
    and its timestamp is what [Date.now()] returned in the last cycle
    that completed, null when none has. *)
Theorem cache_stamp_and_unit (es : list event) (w : world)
    (Hrun : run module_load es = Some w) :
  timestamp (currentTemperature (vars w)) = last_now es
  /\ unit_ (currentTemperature (vars w)) = "C".
Proof.
  destruct (run_stamp es module_load w Hrun) as [Hst Hun].
  split; [|now apply Hun].
  rewrite Hst. destruct (last_now es); reflexivity.
Qed.

Lemma cache_stamp_and_unit_witness :
  timestamp
    (currentTemperature
       (vars (World (fst (acquire Sample.env_none 9
                            (fst (acquire Sample.env_linux 5
                                    (vars module_load)))))
                [Timer 1 (Interval UPDATE_INTERVAL)] 2 false))) = Some 9%Z.
Proof.
  exact (proj1 (cache_stamp_and_unit
           [ExecDone Sample.env_linux 5; Tick 1; ExecDone Sample.env_none 9]
           (World (fst (acquire Sample.env_none 9
                          (fst (acquire Sample.env_linux 5
                                  (vars module_load)))))
              [Timer 1 (Interval UPDATE_INTERVAL)] 2 false) eq_refl)).
Defined.

(** ** Requests and timers *)

Lemma run_requests (es : list event) (w : world) :
  List.forallb is_request es = true -> run w es = Some w.
Proof.
  induction es as [|e es IH]; cbn; [reflexivity|].
  destruct e as [id|env now|h]; cbn; try discriminate. exact IH.
Qed.

(** The endpoint only reads.  Any number of requests, whatever their
    headers, leave the process as it is; and right after a cycle has
    completed, a request with the plugin's header is answered 200 with
    the record that cycle stored, which is also what
    [getTemperatureData] returns. *)
Theorem endpoint_serves_last_cycle (w w1 : world) (env : exec_env) (now : Z)
    (r : option response)
    (Hstep : step w (ExecDone env now) = Some (w1, r)) :
  let stored :=
    match snd (fst (readTemperature env (vars w))) with
    | Ok temp => Reading (Some temp) (Some now) "C" None
    | Err message => Reading None (Some now) "C" (Some message)
    end in
  (forall es, List.forallb is_request es = true -> run w1 es = Some w1)
  /\ step w1 (Request (Some (JsString.of_string "ServerTempPlugin")))
     = Some (w1, Some (Response 200 (JsonReading stored)))
  /\ getTemperatureData (vars w1) = stored.
Proof.
  apply step_vars in Hstep as [_ Hv].
  assert (Hc : currentTemperature (vars w1)
               = match snd (fst (readTemperature env (vars w))) with
                 | Ok temp => Reading (Some temp) (Some now) "C" None
                 | Err message => Reading None (Some now) "C" (Some message)
                 end).
  { rewrite Hv. apply acquire_cache. }
  cbv zeta. split; [|split].
  - intros es Hes. now apply run_requests.
  - cbn [step]. unfold server_temp. cbn. rewrite Hc. reflexivity.
  - unfold getTemperatureData. exact Hc.
Qed.

Lemma endpoint_serves_last_cycle_witness :
  getTemperatureData (fst (acquire Sample.env_pi 4 (vars module_load)))
  = Reading (Some (JsNum.number (456 # 10))) (Some 4%Z) "C" None.
Proof.
  exact (proj2 (proj2 (endpoint_serves_last_cycle module_load
           (World (fst (acquire Sample.env_pi 4 (vars module_load)))
              [Timer 1 (Interval UPDATE_INTERVAL)] 2 false)
           Sample.env_pi 4 None eq_refl))).
Defined.

Lemma step_timers w e w' r :
  step w e = Some (w', r) ->
  next_id w' = next_id w /\ forall t, In t (timers w') -> In t (timers w).
Proof.
  destruct e as [id|env now|h]; cbn.
  - destruct (find_timer id (timers w)) as [t|]; [|discriminate].
    destruct (in_flight w); [discriminate|].
    unfold call_updateTemperature.
    destruct (kind t), (negb (temperatureSupported (vars w)));
      intros H; injection H as <- _; cbn; split; auto;
      intros t' Ht'; apply filter_In in Ht'; tauto.
  - destruct (in_flight w); [|discriminate].
    destruct (acquire env now (vars w)) as [s effs].
    intros H; injection H as <- _. cbn. split; [reflexivity|].
    intros t' Ht'. unfold apply_effects in Ht'. apply filter_In in Ht'. tauto.
  - intros H; injection H as <- _. auto.
Qed.

(** After module load the server never creates a timer: along any
    sequence of events the live timers are among those it started
    with, and no timer identity is handed out. *)
Theorem no_timer_created (es : list event) (w w' : world)
    (Hrun : run w es = Some w') :
  next_id w' = next_id w /\ forall t, In t (timers w') -> In t (timers w).
Proof.
  revert w Hrun. induction es as [|e es IH]; intros w Hrun; cbn in Hrun.
  - injection Hrun as <-. auto.
  - destruct (step w e) as [[w1 r]|] eqn:Hstep; [|discriminate].
    destruct (step_timers w e w1 r Hstep) as [Hn Hin].
    destruct (IH w1 Hrun) as [Hn' Hin']. split; [congruence|auto].
Qed.

Lemma no_timer_created_witness :
  next_id (World (fst (acquire Sample.env_none 7 (vars module_load))) [] 2 false)
  = next_id module_load.
Proof.
  exact (proj1 (no_timer_created [Request None; ExecDone Sample.env_none 7]
           module_load
           (World (fst (acquire Sample.env_none 7 (vars module_load))) [] 2 false)
           eq_refl)).
Defined.

(* ===================================================================== *)
(** * Further properties of the probes *)
(* ===================================================================== *)

Local Close Scope string_scope.

(** ** What a match tells about the text *)

Lemma plus_loop_inv p k : forall s acc r,
  Regex.plus_loop p k acc s = Some r ->
  exists xs rest,
    is_run p xs = true /\ s = xs ++ rest /\ k (List.rev acc ++ xs) rest = Some r.
Proof.
  induction s as [|c s IH]; intros acc r H; cbn in H; [discriminate|].
  destruct (p c) eqn:Hc; [|discriminate].
  destruct (Regex.plus_loop p k (c :: acc) s) as [r'|] eqn:Hl.
  - injection H as <-.
    destruct (IH (c :: acc) r' Hl) as (xs & rest & Hxs & -> & Hk).
    exists (c :: xs), rest. unfold is_run in *. cbn.
    apply andb_true_iff in Hxs as [_ Hxs]. rewrite Hc, Hxs.
    split; [reflexivity|]. split; [reflexivity|].
    cbn [List.rev] in Hk. now rewrite <- app_assoc in Hk.
  - exists [c], s. unfold is_run. cbn. rewrite Hc.
    split; [reflexivity|]. split; [reflexivity|exact H].
Qed.

Lemma match_here_plus_inv p cap re s caps :
  Regex.match_here (Regex.Atom p Regex.Plus cap :: re) s = Some caps ->
  exists xs rest caps',
    is_run p xs = true /\ s = xs ++ rest
    /\ Regex.match_here re rest = Some caps'
    /\ caps = if cap then xs :: caps' else caps'.
Proof.
  cbn [Regex.match_here Regex.qnt Regex.cls Regex.captured]. intros H.
  apply plus_loop_inv in H as (xs & rest & Hxs & -> & Hk).
  cbn [List.rev app] in Hk.
  destruct (Regex.match_here re rest) as [caps'|] eqn:Hre; [|discriminate].
  injection Hk as <-. exists xs, rest, caps'. repeat split; auto.
Qed.

Lemma match_here_lit_inv c re s caps :
  Regex.match_here (Regex.lit c :: re) s = Some caps ->
  exists s', s = c :: s' /\ Regex.match_here re s' = Some caps.
Proof.
  cbn. destruct s as [|d s]; [discriminate|].
  destruct (c =? d) eqn:Hcd; [|discriminate].
  apply N.eqb_eq in Hcd as <-. intros H. exists s. split; [reflexivity|].
  destruct (Regex.match_here re s); [exact H|discriminate].
Qed.

Lemma match_here_lits_inv cs re s caps :
  Regex.match_here (List.map Regex.lit cs ++ re) s = Some caps ->
  exists s', s = cs ++ s' /\ Regex.match_here re s' = Some caps.
Proof.
  revert s. induction cs as [|c cs IH]; intros s H.
  - exists s. auto.
  - cbn [List.map app] in H.
    apply match_here_lit_inv in H as (s1 & -> & H).
    apply IH in H as (s2 & -> & H). exists s2. auto.
Qed.

Lemma search_inv re : forall s caps,
  Regex.search re s = Some caps ->
  exists pre rest,
    s = pre ++ rest /\ Regex.match_here re rest = Some caps
    /\ no_match_in_prefix re (List.length pre) s = true.
Proof.
  induction s as [|c s IH]; intros caps H.
  - exists [], []. cbn in H.
    destruct (Regex.match_here re []) eqn:Hm; [|discriminate].
    injection H as <-. auto.
  - cbn [Regex.search] in H.
    destruct (Regex.match_here re (c :: s)) as [caps0|] eqn:Hm.
    + injection H as <-. exists [], (c :: s). auto.
    + apply IH in H as (pre & rest & -> & Hr & Hno).
      exists (c :: pre), rest. split; [reflexivity|]. split; [exact Hr|].
      cbn [List.length no_match_in_prefix app]. rewrite Hm. exact Hno.
Qed.

(** Greedy repetition before a continuation that cannot fail takes the
    whole run. *)
Lemma plus_loop_longest p k :
  (forall text rest, k text rest <> None) ->
  forall s acc r,
    Regex.plus_loop p k acc s = Some r ->
    exists xs rest,
      is_run p xs = true /\ stops p rest = true /\ s = xs ++ rest
      /\ k (List.rev acc ++ xs) rest = Some r.
Proof.
  intros Hk. induction s as [|c s IH]; intros acc r H; cbn in H; [discriminate|].
  destruct (p c) eqn:Hc; [|discriminate].
  destruct (Regex.plus_loop p k (c :: acc) s) as [r'|] eqn:Hl.
  - injection H as <-.
    destruct (IH (c :: acc) r' Hl) as (xs & rest & Hxs & Hst & -> & Hkr).
    exists (c :: xs), rest. unfold is_run in *. cbn.
    apply andb_true_iff in Hxs as [_ Hxs]. rewrite Hc, Hxs.
    repeat split; auto. cbn [List.rev] in Hkr. now rewrite <- app_assoc in Hkr.
  - exists [c], s. unfold is_run. cbn. rewrite Hc.
    repeat split; auto.
    destruct s as [|d s]; [reflexivity|]. cbn in *.
    destruct (p d); [|reflexivity].
    destruct (Regex.plus_loop p k (d :: c :: acc) s) eqn:Hl2; [discriminate|].
    now apply Hk in Hl.
Qed.

(** ** Success of [tryVcgencmd] and [trySensors], both ways *)

Lemma is_run_parts p xs :
  is_run p xs = true -> List.forallb p xs = true /\ xs <> [].
Proof.
  unfold is_run. intros H. apply andb_true_iff in H as [Hne Hxs].
  split; [exact Hxs|]. destruct xs; [discriminate|discriminate].
Qed.

Lemma tryVcgencmd_run pre text post :
  is_run JsString.is_digit_or_dot text = true ->
  stops JsString.is_digit_or_dot post = true ->
  no_match_in_prefix re_vcgencmd (List.length pre) (vcgencmd_run pre text post)
  = true ->
  tryVcgencmd (ExecResult None (vcgencmd_run pre text post))
  = Ok (JsNum.parseFloat text).
Proof.
  intros Htext Hpost Hpre. apply is_run_parts in Htext as [Hcls Hne].
  unfold tryVcgencmd, has_output. cbn [exec_error exec_stdout].
  unfold vcgencmd_run in *.
  rewrite truthy_app_r by reflexivity.
  rewrite (search_after_prefix _ _ _ Hpre).
  erewrite search_here.
  2:{ unfold re_vcgencmd, Regex.lits. rewrite match_here_lits.
      apply match_here_plus; try eassumption. reflexivity. }
  reflexivity.
Qed.

Lemma tryVcgencmd_inv r t :
  tryVcgencmd r = Ok t ->
  exec_error r = None
  /\ exists pre text post,
       exec_stdout r = vcgencmd_run pre text post
       /\ is_run JsString.is_digit_or_dot text = true
       /\ stops JsString.is_digit_or_dot post = true
       /\ no_match_in_prefix re_vcgencmd (List.length pre) (exec_stdout r) = true
       /\ t = JsNum.parseFloat text.
Proof.
  unfold tryVcgencmd, has_output. intros H.
  destruct (exec_error r); [discriminate|].
  destruct (JsString.truthy (exec_stdout r)); [|discriminate].
  destruct (Regex.search re_vcgencmd (exec_stdout r)) as [caps|] eqn:Hs;
    [|discriminate].
  injection H as <-. split; [reflexivity|].
  apply search_inv in Hs as (pre & rest & Hsplit & Hm & Hno).
  unfold re_vcgencmd, Regex.lits in Hm.
  apply match_here_lits_inv in Hm as (s1 & -> & Hm).
  cbn [Regex.match_here Regex.qnt Regex.cls Regex.captured] in Hm.
  apply plus_loop_longest in Hm as (text & post & Htext & Hpost & -> & Hk);
    [|intros; discriminate].
  cbn in Hk. injection Hk as <-.
  exists pre, text, post. unfold vcgencmd_run. repeat split; auto.
Qed.

Lemma trySensors_run pre n ws text post :
  is_run JsString.is_digit n = true ->
  is_run JsString.is_space ws = true ->
  is_run JsString.is_digit_or_dot text = true ->
  no_match_in_prefix re_sensors (List.length pre)
    (sensors_run pre n ws text post) = true ->
  trySensors (ExecResult None (sensors_run pre n ws text post))
  = Ok (JsNum.parseFloat text).
Proof.
  intros Hn Hws Htext Hpre.
  apply is_run_parts in Hn as [Hn Hnne].
  apply is_run_parts in Hws as [Hws Hwne].
  apply is_run_parts in Htext as [Hcls Hne].
  unfold trySensors, has_output. cbn [exec_error exec_stdout].
  unfold sensors_run in *.
  rewrite truthy_app_r by reflexivity.
  rewrite (search_after_prefix _ _ _ Hpre).
  erewrite search_here.
  2:{ unfold re_sensors, Regex.lits. rewrite match_here_lits.
      cbn [app].
      apply (match_here_plus JsString.is_digit false); try assumption.
      - reflexivity.
      - rewrite match_here_lit.
        apply (match_here_plus JsString.is_space false); try assumption.
        + reflexivity.
        + rewrite match_here_lit.
          apply (match_here_plus JsString.is_digit_or_dot true); try assumption.
          * reflexivity.
          * rewrite match_here_lit.
            change (JsString.of_string "C"%string) with [67].
            change (List.map Regex.lit [67]) with [Regex.lit 67].
            cbn [app]. rewrite match_here_lit. reflexivity. }
  reflexivity.
Qed.

Lemma trySensors_inv r t :
  trySensors r = Ok t ->
  exec_error r = None
  /\ exists pre n ws text post,
       exec_stdout r = sensors_run pre n ws text post
       /\ is_run JsString.is_digit n = true
       /\ is_run JsString.is_space ws = true
       /\ is_run JsString.is_digit_or_dot text = true
       /\ no_match_in_prefix re_sensors (List.length pre) (exec_stdout r) = true
       /\ t = JsNum.parseFloat text.
Proof.
  unfold trySensors, has_output. intros H.
  destruct (exec_error r); [discriminate|].
  destruct (JsString.truthy (exec_stdout r)); [|discriminate].
  destruct (Regex.search re_sensors (exec_stdout r)) as [caps|] eqn:Hs;
    [|discriminate].
  injection H as <-. split; [reflexivity|].
  apply search_inv in Hs as (pre & rest & Hsplit & Hm & Hno).
  unfold re_sensors, Regex.lits in Hm.
  apply match_here_lits_inv in Hm as (s1 & -> & Hm).
  cbn [app] in Hm.
  apply match_here_plus_inv in Hm as (n & s2 & caps1 & Hn & -> & Hm & ->).
  apply match_here_lit_inv in Hm as (s3 & -> & Hm).
  apply match_here_plus_inv in Hm as (ws & s4 & caps2 & Hws & -> & Hm & ->).
  apply match_here_lit_inv in Hm as (s5 & -> & Hm).
  apply match_here_plus_inv in Hm as (text & s6 & caps3 & Htext & -> & Hm & ->).
  apply match_here_lit_inv in Hm as (s7 & -> & Hm).
  change (JsString.of_string "C"%string) with [67] in Hm.
  change (List.map Regex.lit [67]) with [Regex.lit 67] in Hm.
  apply match_here_lit_inv in Hm as (post & -> & Hm).
  cbn in Hm. injection Hm as <-.
  exists pre, n, ws, text, post. unfold sensors_run. repeat split; auto.
Qed.

(** [tryVcgencmd] succeeds exactly on output that has [temp=] followed
    by a run of digits and dots; the run taken is the one of the
    leftmost such place, whole, and the value is [parseFloat] of it. *)
Theorem tryVcgencmd_success_shape (r : exec_result) (t : JsNum.t) :
  tryVcgencmd r = Ok t <->
  exec_error r = None
  /\ exists pre text post,
       exec_stdout r = vcgencmd_run pre text post
       /\ is_run JsString.is_digit_or_dot text = true
       /\ stops JsString.is_digit_or_dot post = true
       /\ no_match_in_prefix re_vcgencmd (List.length pre) (exec_stdout r) = true
       /\ t = JsNum.parseFloat text.
Proof.
  split; [apply tryVcgencmd_inv|].
  intros (He & pre & text & post & Hout & Htext & Hpost & Hno & ->).
  destruct r as [e out]. cbn in *. subst e out.
  now apply tryVcgencmd_run.
Qed.

(** [trySensors] succeeds exactly on output that has [Core], a space,
    digits, a colon, white space, a plus sign, a run of digits and dots
    and [°C]; the leftmost such place is taken and the value is
    [parseFloat] of its run. *)
Theorem trySensors_success_shape (r : exec_result) (t : JsNum.t) :
  trySensors r = Ok t <->
  exec_error r = None
  /\ exists pre n ws text post,
       exec_stdout r = sensors_run pre n ws text post
       /\ is_run JsString.is_digit n = true
       /\ is_run JsString.is_space ws = true
       /\ is_run JsString.is_digit_or_dot text = true
       /\ no_match_in_prefix re_sensors (List.length pre) (exec_stdout r) = true
       /\ t = JsNum.parseFloat text.
Proof.
  split; [apply trySensors_inv|].
  intros (He & pre & n & ws & text & post & Hout & Hn & Hws & Htext & Hno & ->).
  destruct r as [e out]. cbn in *. subst e out.
  now apply trySensors_run.
Qed.

Lemma tryVcgencmd_success_shape_witness :
  exec_error (Sample.env_pi vcgencmd) = None.
Proof.
  exact (proj1 (proj1 (tryVcgencmd_success_shape (Sample.env_pi vcgencmd)
                         (JsNum.number (456 # 10))) eq_refl)).
Defined.

Lemma trySensors_success_shape_witness :
  exec_error (Sample.env_sensors sensors) = None.
Proof.
  exact (proj1 (proj1 (trySensors_success_shape (Sample.env_sensors sensors)
                         (JsNum.number (380 # 10))) eq_refl)).
Defined.

(** ** Sign and not-a-number *)

Lemma unsigned_decimal_nonneg s q :
  JsNum.unsigned_decimal s = Some q -> (0 <= q)%Q.
Proof.
  unfold JsNum.unsigned_decimal.
  destruct (JsString.span JsString.is_digit s) as [ip r1].
  destruct (match r1 with
            | [] => ([], r1)
            | c :: r => if c =? JsString.c_dot
                        then JsString.span JsString.is_digit r else ([], r1)
            end) as [fp r2].
  assert (Hq : (0 <= inject_Z (JsNum.digits_val (ip ++ fp))
                     * Qpower (inject_Z 10)
                         (JsNum.exponent_part r2 - Z.of_nat (List.length fp)))%Q).
  { apply Qmult_le_0_compat.
    - change 0%Q with (inject_Z 0). rewrite <- Zle_Qle.
      apply digits_val_nonneg.
    - apply Qpower_0_le. discriminate. }
  destruct ip, fp; intros H; try discriminate; injection H as <-; exact Hq.
Qed.

Lemma class_char c :
  JsString.is_digit_or_dot c = true ->
  JsString.is_space c = false /\ (c =? 45) = false /\ (c =? 43) = false
  /\ (73 =? c) = false.
Proof.
  unfold JsString.is_digit_or_dot. intros H. apply orb_true_iff in H as [H|H].
  - repeat split.
    + now apply digit_not_space.
    + apply digit_not; [exact H|lia].
    + apply digit_not; [exact H|lia].
    + apply digit_not'; [exact H|lia].
  - apply N.eqb_eq in H. subst c. repeat split.
Qed.

(** [parseFloat] of text that starts with a digit or a dot. *)
Lemma parseFloat_class c s :
  JsString.is_digit_or_dot c = true ->
  JsNum.parseFloat (c :: s)
  = match JsNum.unsigned_decimal (c :: s) with
    | Some q => JsNum.number q
    | None => JsNum.NaN
    end.
Proof.
  intros Hc. destruct (class_char c Hc) as (Hsp & Hm & Hp & Hi).
  unfold JsNum.parseFloat. cbn [JsString.span]. rewrite Hsp.
  unfold JsString.c_minus, JsString.c_plus. rewrite Hm, Hp.
  cbn [JsString.strip_prefix JsString.of_string list_ascii_of_string List.map].
  change (N_of_ascii "I") with 73. rewrite Hi.
  destruct (JsNum.unsigned_decimal (c :: s)); reflexivity.
Qed.

Lemma parseFloat_run_sign text :
  is_run JsString.is_digit_or_dot text = true ->
  not_negative (JsNum.parseFloat text).
Proof.
  intros H. apply is_run_parts in H as [Hcls Hne].
  destruct text as [|c s]; [congruence|]. cbn in Hcls.
  apply andb_true_iff in Hcls as [Hc _].
  rewrite (parseFloat_class c s Hc).
  destruct (JsNum.unsigned_decimal (c :: s)) as [q|] eqn:Hq; [|exact I].
  apply unsigned_decimal_nonneg in Hq.
  pose proof (number_sign q Hq) as Hs.
  destruct (JsNum.number q); cbn; [exact I|exact Hs|exact Hs].
Qed.

(** The probes that read with a pattern never report a temperature
    below zero: what [tryVcgencmd] and [trySensors] deliver on success
    is not-a-number, a number that is not negative, or the positive
    infinity (which a run too long for a double rounds to); never a
    negative number and never the negative infinity.  (The patterns
    admit no minus sign, so output with a temperature below zero makes
    these probes fail or read another place.) *)
Theorem pattern_probes_not_negative (r : exec_result) (t : JsNum.t)
    (Hok : tryVcgencmd r = Ok t \/ trySensors r = Ok t) :
  not_negative t.
Proof.
  destruct Hok as [H|H].
  - apply tryVcgencmd_inv in H
      as (_ & pre & text & post & _ & Htext & _ & _ & ->).
    now apply parseFloat_run_sign.
  - apply trySensors_inv in H
      as (_ & pre & n & ws & text & post & _ & _ & _ & Htext & _ & ->).
    now apply parseFloat_run_sign.
Qed.

Lemma span_fst_nil p s : fst (JsString.span p s) = [] <-> stops p s = true.
Proof.
  destruct s as [|c s]; cbn; [tauto|].
  destruct (p c); cbn.
  - destruct (JsString.span p s). cbn. split; discriminate.
  - tauto.
Qed.

Lemma number_ok_nan q : Ok (JsNum.number q) <> Ok JsNum.NaN.
Proof.
  intros H. injection H as H. pose proof (number_not_nan q) as Hn.
  rewrite H in Hn. discriminate.
Qed.

(** A successful [tryVcgencmd] delivers not-a-number exactly when the
    run after [temp=] starts with a dot that no digit follows. *)
Theorem tryVcgencmd_nan (pre text post : JsString.t)
    (Htext : is_run JsString.is_digit_or_dot text = true)
    (Hpost : stops JsString.is_digit_or_dot post = true)
    (Hpre : no_match_in_prefix re_vcgencmd (List.length pre)
              (vcgencmd_run pre text post) = true) :
  tryVcgencmd (ExecResult None (vcgencmd_run pre text post)) = Ok JsNum.NaN
  <-> exists rest, text = JsString.c_dot :: rest
                   /\ stops JsString.is_digit rest = true.
Proof.
  rewrite (tryVcgencmd_run pre text post Htext Hpost Hpre).
  apply is_run_parts in Htext as [Hcls Hne].
  destruct text as [|c s]; [congruence|]. cbn in Hcls.
  apply andb_true_iff in Hcls as [Hc _].
  rewrite (parseFloat_class c s Hc).
  unfold JsNum.unsigned_decimal. cbn [JsString.span].
  destruct (JsString.is_digit c) eqn:Hd.
  - destruct (JsString.span JsString.is_digit s) as [ip r1].
    destruct (match r1 with
              | [] => ([], r1)
              | c0 :: r => if c0 =? JsString.c_dot
                           then JsString.span JsString.is_digit r else ([], r1)
              end) as [fp r2].
    split; [destruct ip, fp; intros H; now apply number_ok_nan in H|].
    intros (rest & Heq & _). injection Heq as -> _. discriminate.
  - unfold JsString.is_digit_or_dot in Hc. rewrite Hd in Hc. cbn in Hc.
    rewrite Hc. apply N.eqb_eq in Hc. subst c.
    pose proof (span_fst_nil JsString.is_digit s) as Hnil.
    destruct (JsString.span JsString.is_digit s) as [fp r2]. cbn in Hnil.
    split.
    + intros H. exists s. split; [reflexivity|]. apply Hnil.
      destruct fp; [reflexivity|now apply number_ok_nan in H].
    + intros (rest & Heq & Hst). injection Heq as <-.
      apply Hnil in Hst. subst fp. reflexivity.
Qed.

Lemma pattern_probes_not_negative_witness :
  not_negative (JsNum.number (456 # 10)).
Proof.
  exact (pattern_probes_not_negative (Sample.env_pi vcgencmd)
           (JsNum.number (456 # 10)) (or_introl eq_refl)).
Defined.

Lemma tryVcgencmd_nan_witness :
  tryVcgencmd
    (ExecResult None
       (vcgencmd_run [] [JsString.c_dot] (JsString.of_string "'C")))
  = Ok JsNum.NaN.
Proof.
  refine (proj2 (tryVcgencmd_nan [] [JsString.c_dot] (JsString.of_string "'C")
                   eq_refl eq_refl eq_refl) _).
  exists []. split; reflexivity.
Defined.

(** ** The thermal zone: signs and infinities *)

Lemma sign_char (negative : bool) :
  let c := if negative then JsString.c_minus else JsString.c_plus in
  JsString.is_space c = false.
Proof. destruct negative; reflexivity. Qed.

Lemma span_space_signed ws negative body :
  List.forallb JsString.is_space ws = true ->
  JsString.span JsString.is_space (signed_text ws negative body)
  = (ws, (if negative then JsString.c_minus else JsString.c_plus) :: body).
Proof.
  intros Hws. unfold signed_text. apply span_stops; [exact Hws|].
  cbn. now rewrite sign_char.
Qed.





(** The thermal-zone probe takes [Infinity] for a reading: content
    made of white space, an optional sign and the word [Infinity],
    whatever follows, is a success whose value is the signed
    infinity. *)
Theorem tryThermalZone_infinity (ws post : JsString.t)
    (Hws : List.forallb JsString.is_space ws = true) :
  tryThermalZone
    (ExecResult None (ws ++ JsString.of_string "Infinity" ++ post))
  = Ok (JsNum.Infinity false)
  /\ forall negative,
       tryThermalZone
         (ExecResult None
            (signed_text ws negative (JsString.of_string "Infinity" ++ post)))
       = Ok (JsNum.Infinity negative).
Proof.
  split.
  - unfold tryThermalZone, has_output. cbn [exec_error exec_stdout].
    rewrite truthy_app_r by reflexivity.
    unfold JsNum.parseFloat.
    rewrite (span_stops JsString.is_space ws _ Hws) by reflexivity.
    cbn. reflexivity.
  - intros negative.
    unfold tryThermalZone, has_output. cbn [exec_error exec_stdout].
    assert (Ht : JsString.truthy
                   (signed_text ws negative
                      (JsString.of_string "Infinity" ++ post)) = true).
    { unfold signed_text. apply truthy_app_r. reflexivity. }
    rewrite Ht. unfold JsNum.parseFloat.
    rewrite (span_space_signed ws negative _ Hws).
    destruct negative; cbn; reflexivity.
Qed.

Lemma tryThermalZone_infinity_witness :
  tryThermalZone (ExecResult None (JsString.of_string "Infinity" ++ Sample.nl))
  = Ok (JsNum.Infinity false).
Proof.
  exact (proj1 (tryThermalZone_infinity [] Sample.nl eq_refl)).
Defined.

Local Open Scope string_scope.

(* ===================================================================== *)
(** * Properties of the browser side *)
(* ===================================================================== *)

Local Close Scope string_scope.

Lemma get_update_first id f doc :
  (forall e, Page.el_id (f e) = Page.el_id e) ->
  Page.getElementById id (Page.update_first id f doc)
  = option_map f (Page.getElementById id doc).
Proof.
  intros Hf. induction doc as [|e rest IH]; cbn; [reflexivity|].
  destruct (String.eqb (Page.el_id e) id) eqn:He; cbn.
  - now rewrite Hf, He.
  - now rewrite He.
Qed.

Lemma count_update_first id id' f doc :
  (forall e, Page.el_id (f e) = Page.el_id e) ->
  Page.count_id id' (Page.update_first id f doc) = Page.count_id id' doc.
Proof.
  intros Hf. induction doc as [|e rest IH]; cbn; [reflexivity|].
  destruct (String.eqb (Page.el_id e) id); cbn; [now rewrite Hf|now rewrite IH].
Qed.

Lemma length_update_first id f doc :
  List.length (Page.update_first id f doc) = List.length doc.
Proof.
  induction doc as [|e rest IH]; cbn; [reflexivity|].
  destruct (String.eqb (Page.el_id e) id); cbn; [reflexivity|now rewrite IH].
Qed.

Lemma count_zero_get id doc :
  Page.count_id id doc = 0%nat <-> Page.getElementById id doc = None.
Proof.
  induction doc as [|e rest IH]; cbn; [tauto|].
  destruct (String.eqb (Page.el_id e) id); cbn; [split; discriminate|exact IH].
Qed.

Lemma getElementById_app id before rest :
  Page.getElementById id before = None ->
  Page.getElementById id (before ++ rest) = Page.getElementById id rest.
Proof.
  induction before as [|e before IH]; cbn; [reflexivity|].
  destruct (String.eqb (Page.el_id e) id); [discriminate|exact IH].
Qed.

Lemma getElementById_app_none id before rest :
  Page.getElementById id (before ++ rest) = None ->
  Page.getElementById id before = None /\ Page.getElementById id rest = None.
Proof.
  induction before as [|e before IH]; cbn; [auto|].
  destruct (String.eqb (Page.el_id e) id); [discriminate|exact IH].
Qed.

Lemma insert_before_ping_app before ping after :
  Page.getElementById Page.ping_id before = None ->
  Page.el_id ping = Page.ping_id ->
  Page.insert_before_ping (before ++ ping :: after)
  = (before ++ Page.tempSpan :: Page.set_marginTop "0" ping :: after)%list.
Proof.
  intros Hb Hp. induction before as [|e before IH]; cbn.
  - rewrite Hp. reflexivity.
  - cbn in Hb. destruct (String.eqb (Page.el_id e) Page.ping_id);
      [discriminate|]. now rewrite IH.
Qed.

Lemma update_first_app id f before e rest :
  Page.getElementById id before = None ->
  Page.el_id e = id ->
  Page.update_first id f (before ++ e :: rest) = (before ++ f e :: rest)%list.
Proof.
  intros Hb He. induction before as [|x before IH]; cbn.
  - rewrite He, String.eqb_refl. reflexivity.
  - cbn in Hb. destruct (String.eqb (Page.el_id x) id); [discriminate|].
    now rewrite IH.
Qed.

Lemma show_value_id b t unit e :
  Page.el_id (Page.show_value b t unit e) = Page.el_id e.
Proof. reflexivity. Qed.

Lemma show_blank_id error e :
  Page.el_id (Page.show_blank error e) = Page.el_id e.
Proof. reflexivity. Qed.

(** ** The display element *)

Lemma display_needs_anchor_aux b auth temp unit error doc :
  Page.getElementById Page.display_id doc = None ->
  Page.getElementById Page.ping_id doc = None ->
  Page.updateTemperatureDisplay b auth temp unit error doc = doc.
Proof.
  intros Hnone Hping.
  unfold Page.updateTemperatureDisplay, Page.createTemperatureElement.
  rewrite Hnone. cbn [Page.ADMIN_ONLY andb]. rewrite Hping, Hnone. reflexivity.
Qed.

(** Without an element [current-ping] and without a display element,
    [updateTemperatureDisplay] leaves the page exactly as it is,
    whatever it is asked to show: the reading is dropped. *)
Theorem display_needs_anchor (b : Page.builtins) (auth : bool)
    (temp : option JsNum.t) (unit error : option JsString.t)
    (doc : Page.document)
    (Hnone : Page.getElementById Page.display_id doc = None)
    (Hping : Page.getElementById Page.ping_id doc = None) :
  Page.updateTemperatureDisplay b auth temp unit error doc = doc.
Proof. now apply display_needs_anchor_aux. Qed.

Lemma display_needs_anchor_witness :
  Page.updateTemperatureDisplay PageSample.host true
    (Some (JsNum.number (456 # 10))) None None PageSample.bare
  = PageSample.bare.
Proof.
  exact (display_needs_anchor PageSample.host true (Some (JsNum.number (456 # 10)))
           None None PageSample.bare eq_refl eq_refl).
Defined.

(** On a page that has [current-ping] and no display element yet, the
    first call with a usable temperature creates the display element
    right before the first [current-ping], filled in at once: class
    [text-small], text [Server: <temp.toFixed(1)>°<unit or C>], title
    [Last updated: <time>]; the anchor's top margin becomes ['0'] and
    nothing else on the page changes. *)
Theorem display_created_before_ping (b : Page.builtins) (auth : bool)
    (temp : option JsNum.t) (t : JsNum.t) (unit error : option JsString.t)
    (before after : Page.document) (ping : Page.element)
    (Hnone : Page.getElementById Page.display_id (before ++ ping :: after) = None)
    (Hfirst : Page.getElementById Page.ping_id before = None)
    (Hping : Page.el_id ping = Page.ping_id)
    (Huse : Page.usable temp = Some t) :
  Page.updateTemperatureDisplay b auth temp unit error (before ++ ping :: after)
  = (before
     ++ {| Page.el_id := "server-temp-display";
           Page.tag := "p";
           Page.className := "text-small";
           Page.innerHTML :=
             JsString.of_string "Server: " ++ Page.toFixed1 b t
             ++ JsString.c_deg :: Page.unit_or_C unit;
           Page.title :=
             JsString.of_string "Last updated: " ++ Page.toLocaleTimeString b;
           Page.color := "var(--color-3)";
           Page.display := "block";
           Page.marginBottom := "0";
           Page.marginTop := "" |}
     :: Page.set_marginTop "0" ping :: after)%list.
Proof.
  unfold Page.updateTemperatureDisplay, Page.createTemperatureElement.
  rewrite Hnone. cbn [Page.ADMIN_ONLY andb].
  rewrite (getElementById_app _ _ _ Hfirst). cbn [Page.getElementById].
  rewrite Hping, String.eqb_refl.
  rewrite (insert_before_ping_app before ping after Hfirst Hping).
  destruct (getElementById_app_none _ _ _ Hnone) as [Hb _].
  rewrite (getElementById_app _ _ _ Hb). cbn [Page.getElementById].
  change (String.eqb (Page.el_id Page.tempSpan) Page.display_id) with true.
  cbv iota. rewrite Huse.
  rewrite (update_first_app Page.display_id _ before Page.tempSpan _ Hb eq_refl).
  reflexivity.
Qed.

Lemma display_created_before_ping_witness :
  PageSample.shown
  = [PageSample.heading;
     {| Page.el_id := "server-temp-display"; Page.tag := "p";
        Page.className := "text-small";
        Page.innerHTML :=
          (JsString.of_string "Server: 45.6" ++ Sample.deg
           ++ JsString.of_string "C")%list;
        Page.title := JsString.of_string "Last updated: 12:00:00";
        Page.color := "var(--color-3)"; Page.display := "block";
        Page.marginBottom := "0"; Page.marginTop := "" |};
     Page.set_marginTop "0" PageSample.ping;
     PageSample.footer].
Proof.
  exact (display_created_before_ping PageSample.host false
           (Some (JsNum.number (456 # 10))) (JsNum.number (456 # 10))
           (Some (JsString.of_string "C")) None
           [PageSample.heading] [PageSample.footer] PageSample.ping
           eq_refl eq_refl eq_refl eq_refl).
Defined.

Lemma display_existing b auth temp unit error doc e :
  Page.getElementById Page.display_id doc = Some e ->
  Page.updateTemperatureDisplay b auth temp unit error doc
  = Page.update_first Page.display_id
      (match Page.usable temp with
       | Some t => Page.show_value b t unit
       | None => Page.show_blank error
       end) doc.
Proof.
  intros He. unfold Page.updateTemperatureDisplay. rewrite He.
  cbv beta zeta iota. rewrite He.
  cbn [Page.ADMIN_ONLY andb]. destruct (Page.usable temp); reflexivity.
Qed.

Lemma display_rewritten (b : Page.builtins) (auth : bool)
    (temp : option JsNum.t) (unit error : option JsString.t)
    (doc : Page.document) (e : Page.element)
    (Hshown : Page.getElementById Page.display_id doc = Some e) :
  exists e',
    Page.getElementById Page.display_id
      (Page.updateTemperatureDisplay b auth temp unit error doc) = Some e'
    /\ match Page.usable temp with
       | Some t =>
           Page.innerHTML e'
           = JsString.of_string "Server: " ++ Page.toFixed1 b t
             ++ JsString.c_deg :: Page.unit_or_C unit
           /\ Page.title e'
              = JsString.of_string "Last updated: " ++ Page.toLocaleTimeString b
       | None =>
           Page.innerHTML e' = []
           /\ Page.title e'
              = match error with
                | Some m => if JsString.truthy m
                            then JsString.of_string "Error: " ++ m
                            else Page.title e
                | None => Page.title e
                end
       end
    /\ Page.display e' = "block"%string
    /\ Page.className e' = Page.className e
    /\ List.length (Page.updateTemperatureDisplay b auth temp unit error doc)
       = List.length doc
    /\ forall id, id <> Page.display_id ->
         Page.getElementById id
           (Page.updateTemperatureDisplay b auth temp unit error doc)
         = Page.getElementById id doc.
Proof.
  rewrite (display_existing b auth temp unit error doc e Hshown).
  assert (Hid : forall x,
            Page.el_id (match Page.usable temp with
                        | Some t => Page.show_value b t unit
                        | None => Page.show_blank error
                        end x) = Page.el_id x)
    by (intros x; destruct (Page.usable temp); reflexivity).
  rewrite (get_update_first _ _ _ Hid), Hshown. cbn [option_map].
  eexists. split; [reflexivity|].
  split; [destruct (Page.usable temp); split; reflexivity|].
  split; [destruct (Page.usable temp); reflexivity|].
  split; [destruct (Page.usable temp); reflexivity|].
  split; [apply length_update_first|].
  intros id Hne. clear Hshown.
  induction doc as [|x rest IH]; cbn; [reflexivity|].
  destruct (String.eqb (Page.el_id x) Page.display_id) eqn:Hx; cbn.
  - rewrite Hid. apply String.eqb_eq in Hx.
    destruct (String.eqb (Page.el_id x) id) eqn:Hxi; [|reflexivity].
    apply String.eqb_eq in Hxi. congruence.
  - destruct (String.eqb (Page.el_id x) id); [reflexivity|exact IH].
Qed.

(** When the display element exists, a call rewrites that element and
    nothing else.  With a usable temperature its text becomes
    [Server: <temp.toFixed(1)>°<unit or C>] and its title
    [Last updated: <time>].  With a null or not-a-number temperature
    its text becomes empty, and its title becomes [Error: <error>] only
    when an error text is given; otherwise the title it had stays. *)
Theorem display_content (b : Page.builtins) (auth : bool)
    (temp : option JsNum.t) (unit error : option JsString.t)
    (doc : Page.document) (e : Page.element)
    (Hshown : Page.getElementById Page.display_id doc = Some e) :
  exists e',
    Page.getElementById Page.display_id
      (Page.updateTemperatureDisplay b auth temp unit error doc) = Some e'
    /\ match Page.usable temp with
       | Some t =>
           Page.innerHTML e'
           = JsString.of_string "Server: " ++ Page.toFixed1 b t
             ++ JsString.c_deg :: Page.unit_or_C unit
           /\ Page.title e'
              = JsString.of_string "Last updated: " ++ Page.toLocaleTimeString b
       | None =>
           Page.innerHTML e' = []
           /\ Page.title e'
              = match error with
                | Some m => if JsString.truthy m
                            then JsString.of_string "Error: " ++ m
                            else Page.title e
                | None => Page.title e
                end
       end
    /\ Page.display e' = "block"%string
    /\ Page.className e' = Page.className e
    /\ List.length (Page.updateTemperatureDisplay b auth temp unit error doc)
       = List.length doc
    /\ forall id, id <> Page.display_id ->
         Page.getElementById id
           (Page.updateTemperatureDisplay b auth temp unit error doc)
         = Page.getElementById id doc.
Proof. exact (display_rewritten b auth temp unit error doc e Hshown). Qed.

Lemma display_content_witness :
  exists e',
    Page.getElementById Page.display_id
      (Page.updateTemperatureDisplay PageSample.host false None None None
         PageSample.shown) = Some e'
    /\ Page.innerHTML e' = []
    /\ Page.title e' = JsString.of_string "Last updated: 12:00:00".
Proof.
  destruct (display_content PageSample.host false None None None
              PageSample.shown _ eq_refl) as (e' & Hget & Hc & _).
  exists e'. split; [exact Hget|exact Hc].
Defined.

Lemma insert_before_ping_counts doc p :
  Page.getElementById Page.ping_id doc = Some p ->
  Page.count_id Page.display_id (Page.insert_before_ping doc)
  = S (Page.count_id Page.display_id doc)
  /\ List.length (Page.insert_before_ping doc) = S (List.length doc).
Proof.
  induction doc as [|e rest IH]; cbn; [discriminate|].
  destruct (String.eqb (Page.el_id e) Page.ping_id); cbn.
  - intros _. split; reflexivity.
  - intros H. destruct (IH H) as [-> ->]. split; [|reflexivity].
    destruct (String.eqb (Page.el_id e) Page.display_id); reflexivity.
Qed.

Lemma insert_before_ping_get doc p :
  Page.getElementById Page.display_id doc = None ->
  Page.getElementById Page.ping_id doc = Some p ->
  Page.getElementById Page.display_id (Page.insert_before_ping doc)
  = Some Page.tempSpan.
Proof.
  induction doc as [|e rest IH]; cbn; [discriminate|].
  destruct (String.eqb (Page.el_id e) Page.display_id) eqn:Hd; [discriminate|].
  destruct (String.eqb (Page.el_id e) Page.ping_id); cbn.
  - reflexivity.
  - rewrite Hd. exact IH.
Qed.

(** One call: with a display element on the page nothing is added; with
    none, either the page stays as it is or exactly one is added. *)
Lemma update_step b auth temp unit error doc :
  let doc' := Page.updateTemperatureDisplay b auth temp unit error doc in
  (Page.count_id Page.display_id doc <> 0%nat ->
   Page.count_id Page.display_id doc' = Page.count_id Page.display_id doc
   /\ List.length doc' = List.length doc)
  /\ (Page.count_id Page.display_id doc = 0%nat ->
      doc' = doc
      \/ (Page.count_id Page.display_id doc' = 1%nat
          /\ List.length doc' = S (List.length doc))).
Proof.
  cbv zeta.
  destruct (Page.getElementById Page.display_id doc) as [e|] eqn:Hget.
  - rewrite (display_existing b auth temp unit error doc e Hget).
    split.
    + intros _. split; [|apply length_update_first].
      apply count_update_first. intros x; destruct (Page.usable temp); reflexivity.
    + intros Hz. apply count_zero_get in Hz. congruence.
  - split; [intros Hnz; apply count_zero_get in Hget; congruence|].
    intros Hz.
    destruct (Page.getElementById Page.ping_id doc) as [p|] eqn:Hping.
    + right.
      destruct (insert_before_ping_counts doc p Hping) as [Hc Hl].
      pose proof (insert_before_ping_get doc p Hget Hping) as Hnew.
      unfold Page.updateTemperatureDisplay, Page.createTemperatureElement.
      rewrite Hget. cbn [Page.ADMIN_ONLY andb]. rewrite Hping, Hnew.
      assert (Hid : forall x,
                Page.el_id (match Page.usable temp with
                            | Some t => Page.show_value b t unit
                            | None => Page.show_blank error
                            end x) = Page.el_id x)
        by (intros x; destruct (Page.usable temp); reflexivity).
      destruct (Page.usable temp);
        rewrite count_update_first, length_update_first, Hc, Hl, Hz;
        try (split; reflexivity); intros x; reflexivity.
    + left. now apply display_needs_anchor_aux.
Qed.

Lemma updates_counts b auth cs : forall doc,
  (Page.count_id Page.display_id doc <> 0%nat ->
   Page.count_id Page.display_id (Page.updates b auth cs doc)
   = Page.count_id Page.display_id doc
   /\ List.length (Page.updates b auth cs doc) = List.length doc)
  /\ (Page.count_id Page.display_id doc = 0%nat ->
      (Page.count_id Page.display_id (Page.updates b auth cs doc) <= 1)%nat
      /\ (List.length (Page.updates b auth cs doc) <= S (List.length doc))%nat).
Proof.
  induction cs as [|c cs IH]; intros doc; cbn [Page.updates].
  - split; [auto|]. intros ->. split; lia.
  - destruct (update_step b auth (Page.c_temp c) (Page.c_unit c)
                (Page.c_error c) doc) as [Hpos Hzero].
    destruct (IH (Page.updateTemperatureDisplay b auth (Page.c_temp c)
                    (Page.c_unit c) (Page.c_error c) doc)) as [IHpos IHzero].
    split.
    + intros Hnz. destruct (Hpos Hnz) as [Hc Hl].
      rewrite <- Hc in Hnz. destruct (IHpos Hnz) as [Hc' Hl'].
      split; congruence.
    + intros Hz. destruct (Hzero Hz) as [Hsame|[Hone Hlen]].
      * rewrite Hsame in *. now apply IHzero.
      * assert (Hnz : Page.count_id Page.display_id
                        (Page.updateTemperatureDisplay b auth (Page.c_temp c)
                           (Page.c_unit c) (Page.c_error c) doc) <> 0%nat)
          by (rewrite Hone; discriminate).
        destruct (IHpos Hnz) as [Hc' Hl']. rewrite Hc', Hl', Hone, Hlen.
        split; lia.
Qed.

(** The script never puts a second display element on the page: over
    any sequence of calls of [updateTemperatureDisplay], a page that
    had at most one display element still has at most one, the page
    grows by at most one element, and a page that already had its
    display element keeps its length. *)
Theorem at_most_one_display (b : Page.builtins) (auth : bool)
    (cs : list Page.call) (doc : Page.document)
    (Hone : (Page.count_id Page.display_id doc <= 1)%nat) :
  (Page.count_id Page.display_id (Page.updates b auth cs doc) <= 1)%nat
  /\ (List.length (Page.updates b auth cs doc) <= S (List.length doc))%nat
  /\ (Page.count_id Page.display_id doc = 1%nat ->
      List.length (Page.updates b auth cs doc) = List.length doc).
Proof.
  destruct (updates_counts b auth cs doc) as [Hpos Hzero].
  destruct (Nat.eq_dec (Page.count_id Page.display_id doc) 0) as [Hz|Hnz].
  - destruct (Hzero Hz) as [Hc Hl]. repeat split; auto. intros H1. lia.
  - destruct (Hpos Hnz) as [Hc Hl]. rewrite Hc, Hl.
    repeat split; auto.
Qed.

Lemma at_most_one_display_witness :
  (Page.count_id Page.display_id
     (Page.updates PageSample.host false
        [Page.Call None None None;
         Page.Call (Some (JsNum.number (456 # 10))) None None;
         Page.Call None None (Some (JsString.of_string "sensors failed"))]
        PageSample.fresh) <= 1)%nat.
Proof.
  refine (proj1 (at_most_one_display PageSample.host false _ PageSample.fresh _)).
  cbn. lia.
Defined.

(** ** Polling *)

Lemma server_temp_plugin s :
  server_temp (Some Page.plugin_header) s
  = Response 200 (JsonReading (currentTemperature s)).
Proof. reflexivity. Qed.

(** One poll against the server, on a page that has its display
    element.  The line [Server: <temp.toFixed(1)>°C] is shown exactly
    when the cache holds a finite number.  In every other case (no
    cycle yet, a failed cycle, or a cached not-a-number or infinity,
    which JSON writes as null) the text is emptied; the title then
    becomes [Error: <message>] when the cache holds an error message
    and otherwise stays as it was. *)
Theorem poll_shows_cache (b : Page.builtins) (auth : bool) (s : state)
    (doc : Page.document) (e : Page.element)
    (Hshown : Page.getElementById Page.display_id doc = Some e)
    (Hunit : unit_ (currentTemperature s) = "C"%string) :
  exists e',
    Page.getElementById Page.display_id (Page.poll b auth s doc) = Some e'
    /\ match temperature (currentTemperature s) with
       | Some (JsNum.Num q) =>
           Page.innerHTML e'
           = JsString.of_string "Server: " ++ Page.toFixed1 b (JsNum.Num q)
             ++ [JsString.c_deg; 67]
       | _ =>
           Page.innerHTML e' = []
           /\ Page.title e'
              = match error (currentTemperature s) with
                | Some m =>
                    if JsString.truthy (JsString.of_string m)
                    then JsString.of_string "Error: " ++ JsString.of_string m
                    else Page.title e
                | None => Page.title e
                end
       end.
Proof.
  unfold Page.poll, Page.fetchTemperature.
  rewrite server_temp_plugin. cbn [Page.ok status payload Nat.leb andb].
  change (Nat.leb 200 200 && Nat.leb 200 299) with true. cbv iota.
  destruct (display_rewritten b auth
              (Page.json_number (temperature (currentTemperature s)))
              (Some (JsString.of_string (unit_ (currentTemperature s))))
              (option_map JsString.of_string (error (currentTemperature s)))
              doc e Hshown) as (e' & Hget & Hc & _).
  exists e'. split; [exact Hget|].
  rewrite Hunit in Hc.
  destruct (temperature (currentTemperature s)) as [[| |q]|]; cbn in Hc.
  - destruct Hc as [Hi Ht]. split; [exact Hi|].
    rewrite Ht. destruct (error (currentTemperature s)); reflexivity.
  - destruct Hc as [Hi Ht]. split; [exact Hi|].
    rewrite Ht. destruct (error (currentTemperature s)); reflexivity.
  - exact (proj1 Hc).
  - destruct Hc as [Hi Ht]. split; [exact Hi|].
    rewrite Ht. destruct (error (currentTemperature s)); reflexivity.
Qed.

Lemma poll_shows_cache_witness :
  exists e',
    Page.getElementById Page.display_id
      (Page.poll PageSample.host false Sample.settled PageSample.shown)
    = Some e'
    /\ Page.innerHTML e'
       = (JsString.of_string "Server: 45.6" ++ Sample.deg
          ++ JsString.of_string "C")%list.
Proof.
  destruct (poll_shows_cache PageSample.host false Sample.settled
              PageSample.shown _ eq_refl eq_refl) as (e' & Hget & Hc).
  exists e'. split; [exact Hget|exact Hc].
Defined.

(** When the fetch fails, the display is emptied and says why.  A
    rejected fetch shows [Error: <its message>]; a response whose status
    is outside 200 to 299 shows [Error: Failed to fetch temperature],
    whatever its body says; and the server's answer to a request with
    any header other than the plugin's is such a response. *)
Theorem fetch_failure_blanks (b : Page.builtins) (auth : bool)
    (doc : Page.document) (e : Page.element)
    (Hshown : Page.getElementById Page.display_id doc = Some e) :
  (forall m, JsString.truthy m = true ->
     exists e',
       Page.getElementById Page.display_id
         (Page.fetchTemperature b auth (Page.NetworkError m) doc) = Some e'
       /\ Page.innerHTML e' = []
       /\ Page.title e' = JsString.of_string "Error: " ++ m)
  /\ (forall resp, Page.ok resp = false ->
        exists e',
          Page.getElementById Page.display_id
            (Page.fetchTemperature b auth (Page.Replied resp) doc) = Some e'
          /\ Page.innerHTML e' = []
          /\ Page.title e'
             = JsString.of_string "Error: Failed to fetch temperature")
  /\ (forall header s,
        header <> Some Page.plugin_header ->
        Page.ok (server_temp header s) = false).
Proof.
  split; [|split].
  - intros m Hm. unfold Page.fetchTemperature.
    destruct (display_rewritten b auth None None (Some m) doc e Hshown)
      as (e' & Hget & Hc & _).
    exists e'. cbn in Hc. rewrite Hm in Hc. destruct Hc as [Hi Ht]. auto.
  - intros resp Hok. unfold Page.fetchTemperature. rewrite Hok.
    destruct (display_rewritten b auth None None
                (Some (JsString.of_string "Failed to fetch temperature"))
                doc e Hshown) as (e' & Hget & Hc & _).
    exists e'. cbn in Hc. destruct Hc as [Hi Ht]. auto.
  - intros header s Hne. unfold server_temp.
    assert (Hno : JsString.eqb
                    match header with
                    | Some h => if JsString.truthy h then h
                                else JsString.of_string "NoPlugin"
                    | None => JsString.of_string "NoPlugin"
                    end (JsString.of_string "ServerTempPlugin") = false).
    { destruct header as [[|c h]|]; try reflexivity.
      cbn [JsString.truthy].
      destruct (JsString.eqb (c :: h) (JsString.of_string "ServerTempPlugin"))
        eqn:E; [|reflexivity].
      apply JsString_eqb_eq in E. exfalso. apply Hne.
      unfold Page.plugin_header. now rewrite E. }
    rewrite Hno. reflexivity.
Qed.

Lemma fetch_failure_blanks_witness :
  Page.ok (server_temp None Sample.settled) = false.
Proof.
  refine (proj2 (proj2 (fetch_failure_blanks PageSample.host false
            PageSample.shown _ eq_refl)) None Sample.settled _).
  discriminate.
Defined.

Local Open Scope string_scope.
